(** * Student management CLI (student_mngmt.py): model and properties

    A shallow embedding of the record store (students.csv read and
    written through Python's csv module), of the roll generator and of
    the interactive operations add, delete, search, list, edit and
    topper/average, followed by the properties of the specification.

    Conventions of the model.
    - A Python [str] is a Rocq [string] read as ASCII text.  Characters
      above 127 are kept as they are: they are not whitespace, not
      digits and have no case.
    - A Python [int] is a [Z], and [int(s)] and [str(n)] have no limit
      on the number of digits.  A Python [float] is a binary64 value of
      the Standard Library's [spec_float] (precision 53, emax 1024).
    - A row of the store is a record of three strings, as the source
      annotates it ([Dict[str, str]] over FIELDNAMES).
    - The csv module is the excel dialect the program uses: comma,
      quote, doubled quotes, CR LF, minimal quoting, and the default
      field size limit of the reader.
    - The console and the file are explicit state: see [World]. *)

From Stdlib Require Import ZArith Bool List String Ascii Lia.
From Stdlib Require Import DecimalString SpecFloat Sorted Permutation.
From Stdlib Require DecimalZ DecimalPos.
Import ListNotations.

Local Open Scope string_scope.
Local Open Scope Z_scope.

(* ================================================================== *)
(** * Text primitives (Python [str] methods used by the program)       *)
(* ================================================================== *)

Definition chars (s : string) : list ascii := list_ascii_of_string s.
Definition text (l : list ascii) : string := string_of_list_ascii l.

Definition code (c : ascii) : N := N_of_ascii c.

(** [str.isspace] on one ASCII character: TAB, LF, VT, FF, CR, the four
    separators FS, GS, RS, US, and the space. *)
Definition py_isspace (c : ascii) : bool :=
  let n := code c in
  ((9 <=? n) && (n <=? 13) || (28 <=? n) && (n <=? 32))%N.

(** C's [Py_ISSPACE], the whitespace that [int()] and [float()] skip on
    an ASCII string: TAB, LF, VT, FF, CR and the space. *)
Definition c_isspace (c : ascii) : bool :=
  let n := code c in
  ((9 <=? n) && (n <=? 13) || (n =? 32))%N.

Definition is_digit (c : ascii) : bool :=
  let n := code c in ((48 <=? n) && (n <=? 57))%N.

Definition digit_val (c : ascii) : Z := Z.of_N (code c) - 48.

Fixpoint drop_while (p : ascii -> bool) (l : list ascii) : list ascii :=
  match l with
  | [] => []
  | c :: l' => if p c then drop_while p l' else l
  end.

Definition trim_with (p : ascii -> bool) (l : list ascii) : list ascii :=
  rev (drop_while p (rev (drop_while p l))).

(** [s.strip()] *)
Definition strip (s : string) : string := text (trim_with py_isspace (chars s)).

Definition lower_char (c : ascii) : ascii :=
  let n := code c in
  if ((65 <=? n) && (n <=? 90))%N then ascii_of_N (n + 32) else c.

(** [s.lower()] *)
Definition lower (s : string) : string := text (map lower_char (chars s)).

(** [s.isdigit()]: non-empty and made of decimal digits. *)
Definition isdigit (s : string) : bool :=
  match chars s with
  | [] => false
  | l => forallb is_digit l
  end.

(** Value of a run of decimal digits, most significant first. *)
Definition digits_value (l : list ascii) : Z :=
  fold_left (fun acc c => 10 * acc + digit_val c) l 0.

(** [str(n)] for an [int]. *)
Definition str_of_int (n : Z) : string := NilZero.string_of_int (Z.to_int n).

Fixpoint is_prefix (p l : list ascii) : bool :=
  match p, l with
  | [], _ => true
  | _ :: _, [] => false
  | a :: p', b :: l' => Ascii.eqb a b && is_prefix p' l'
  end.

Fixpoint occurs_in (p l : list ascii) : bool :=
  is_prefix p l ||
  match l with
  | [] => false
  | _ :: l' => occurs_in p l'
  end.

(** [q in s] on strings: [q] occurs as a contiguous run of [s]. *)
Definition str_in (q s : string) : bool := occurs_in (chars q) (chars s).

(** ["{:w}".format(s)] for a string argument: left aligned, padded with
    spaces up to width [w], never truncated. *)
Definition pad (w : nat) (s : string) : string :=
  s ++ text (repeat " "%char (w - String.length s)).

(** The newline character as a string. *)
Definition nl : string := String (ascii_of_nat 10) "".

(** ["-" * n] *)
Definition str_repeat (c : ascii) (n : nat) : string := text (repeat c n).

(* ================================================================== *)
(** * Python floats: binary64 values, [float(str)], [repr], [round]    *)
(* ================================================================== *)

Definition float : Type := spec_float.

Definition prec : Z := 53.
Definition emax : Z := 1024.

Definition f_add : float -> float -> float := SFadd prec emax.
Definition f_div : float -> float -> float := SFdiv prec emax.
Definition f_lt : float -> float -> bool := SFltb.
Definition f_gt (x y : float) : bool := SFltb y x.
Definition f_eq : float -> float -> bool := SFeqb.

(** An [int] converted to the nearest binary64 value. *)
Definition float_of_int (n : Z) : float := binary_normalize prec emax n 0 false.

Definition f_zero : float := S754_zero false.

(** The binary64 value nearest to [(-1)^s * m * 10^e], ties to even:
    what [strtod] returns for a decimal literal with digits [m] and
    decimal exponent [e]. *)
Definition float_of_decimal (s : bool) (m e : Z) : float :=
  match m with
  | Zpos p =>
      if 0 <=? e
      then binary_normalize prec emax ((if s then -1 else 1) * (m * 10 ^ e)) 0 s
      else
        let '(q, e', l) := SFdiv_core_binary prec emax m 0 (10 ^ (- e)) 0 in
        binary_round_aux prec emax s q e' l
  | _ => S754_zero s
  end.

(** The checks of [_Py_string_to_number_with_underscores]: an underscore
    must follow a digit and precede a digit; the underscores are then
    removed.  [prev] is the previous character, if any. *)
Fixpoint remove_underscores (prev : option ascii) (l : list ascii)
  : option (list ascii) :=
  match l with
  | [] =>
      match prev with
      | Some "_"%char => None
      | _ => Some []
      end
  | c :: l' =>
      if Ascii.eqb c "_" then
        match prev with
        | Some p => if is_digit p then remove_underscores (Some c) l' else None
        | None => None
        end
      else
        match prev with
        | Some "_"%char =>
            if is_digit c
            then option_map (cons c) (remove_underscores (Some c) l')
            else None
        | _ => option_map (cons c) (remove_underscores (Some c) l')
        end
  end.

Definition without_underscores (l : list ascii) : option (list ascii) :=
  if existsb (Ascii.eqb "_") l then remove_underscores None l else Some l.

(** Longest prefix of digits, and the rest. *)
Fixpoint span_digits (l : list ascii) : list ascii * list ascii :=
  match l with
  | c :: l' =>
      if is_digit c
      then let '(d, r) := span_digits l' in (c :: d, r)
      else ([], l)
  | [] => ([], [])
  end.

(** An optional sign: [true] for a minus. *)
Definition take_sign (l : list ascii) : bool * list ascii :=
  match l with
  | "-"%char :: r => (true, r)
  | "+"%char :: r => (false, r)
  | _ => (false, l)
  end.

(** The exponent part of a decimal literal: the empty rest is exponent
    0; otherwise [e] or [E], an optional sign and at least one digit,
    up to the end of the literal. *)
Definition parse_exponent (l : list ascii) : option Z :=
  match l with
  | [] => Some 0
  | c :: r =>
      if Ascii.eqb c "e" || Ascii.eqb c "E" then
        let '(neg, r1) := take_sign r in
        match span_digits r1 with
        | ((_ :: _) as d, []) =>
            Some (if neg then - digits_value d else digits_value d)
        | _ => None
        end
      else None
  end.

(** [float(s)] for a string [s]; [None] stands for ValueError. *)
Definition float_of_string (s : string) : option float :=
  match without_underscores (trim_with c_isspace (chars s)) with
  | None => None
  | Some l =>
      let '(neg, body) := take_sign l in
      let word := text (map lower_char body) in
      if String.eqb word "inf" || String.eqb word "infinity"
      then Some (S754_infinity neg)
      else if String.eqb word "nan" then Some S754_nan
      else
        let '(ip, r1) := span_digits body in
        let '(fp, r2) :=
          match r1 with
          | "."%char :: r => span_digits r
          | _ => ([], r1)
          end in
        match (ip ++ fp)%list with
        | [] => None
        | ds =>
            match parse_exponent r2 with
            | Some ex =>
                Some (float_of_decimal neg (digits_value ds)
                        (ex - Z.of_nat (List.length fp)))
            | None => None
            end
        end
  end.

(** [x.is_integer()] *)
Definition is_integer (x : float) : bool :=
  match x with
  | S754_zero _ => true
  | S754_finite _ m e =>
      if 0 <=? e then true else Zpos m mod 2 ^ (- e) =? 0
  | _ => false
  end.

(** [int(x)] for a finite [x]: truncation towards zero. *)
Definition int_of_float (x : float) : Z :=
  match x with
  | S754_finite s m e =>
      let a := if 0 <=? e then Zpos m * 2 ^ e else Zpos m / 2 ^ (- e) in
      if s then - a else a
  | _ => 0
  end.

(** Round-half-even of the non-negative quotient [a / b], [b > 0]. *)
Definition div_half_even (a b : Z) : Z :=
  let q := a / b in
  let r := a mod b in
  match 2 * r ?= b with
  | Lt => q
  | Gt => q + 1
  | Eq => if Z.even q then q else q + 1
  end.

(** [round(x, ndigits)]: the exact value of [x] is rounded (half to
    even) to [ndigits] decimal places and the decimal read back. *)
Definition py_round (x : float) (ndigits : Z) : float :=
  match x with
  | S754_finite s m e =>
      if 323 <? ndigits then x
      else if ndigits <? -308 then S754_zero s
      else
        let num := Zpos m * 2 ^ (Z.max e 0) * 10 ^ (Z.max ndigits 0) in
        let den := 2 ^ (Z.max (- e) 0) * 10 ^ (Z.max (- ndigits) 0) in
        float_of_decimal s (div_half_even num den) (- ndigits)
  | _ => x
  end.

(** ** Shortest round-trip digits ([repr]) *)

(** The exact positive value [m * 2^e] as a fraction [num / den]. *)
Definition as_fraction (m e : Z) : Z * Z :=
  (m * 2 ^ (Z.max e 0), 2 ^ (Z.max (- e) 0)).

(** The least [d], searched upwards from the given one, such that
    [num/den < 10^d]. *)
Fixpoint find_decpt (fuel : nat) (num den d : Z) : Z :=
  match fuel with
  | O => d
  | S fuel' =>
      if num * 10 ^ (Z.max (- d) 0) <? den * 10 ^ (Z.max d 0)
      then d
      else find_decpt fuel' num den (d + 1)
  end.

(** The digits to print for the finite positive value [m * 2^e], as an
    integer [c] and a power [p]: the decimal printed is [c * 10^p].
    For each length [k] from 1 upwards the two [k]-digit decimals
    around the value are tried; the first one that reads back as the
    same binary64 value wins, the nearer of the two if both do (the
    even one on a tie).  [d] is the position of the decimal point:
    [10^(d-1) <= m * 2^e < 10^d]. *)
Fixpoint shortest_from (fuel : nat) (k : Z) (m : positive) (e : Z) (d : Z)
  : Z * Z :=
  let '(num, den) := as_fraction (Zpos m) e in
  let p := d - k in
  let a := num * 10 ^ (Z.max (- p) 0) in
  let b := den * 10 ^ (Z.max p 0) in
  let lo := a / b in
  let hi := if a mod b =? 0 then lo else lo + 1 in
  let reads c := match float_of_decimal false c p with
                 | S754_finite _ m' e' => Pos.eqb m' m && (e' =? e)
                 | _ => false
                 end in
  let pick :=
    match reads lo, reads hi with
    | true, true =>
        match 2 * (a mod b) ?= b with
        | Lt => Some lo
        | Gt => Some hi
        | Eq => Some (if Z.even lo then lo else hi)
        end
    | true, false => Some lo
    | false, true => Some hi
    | false, false => None
    end in
  match pick, fuel with
  | Some c, _ => (c, p)
  | None, O => (lo, p)
  | None, S fuel' => shortest_from fuel' (k + 1) m e d
  end.

(** A position from which [find_decpt] may start: a power of ten below
    the value, computed from the binary logarithms. *)
Definition decpt_below (num den : Z) : Z :=
  let l := Z.log2 num - Z.log2 den - 1 in
  (if 0 <=? l then l * 3 / 10 else l * 31 / 100 - 1) - 1.

Definition shortest_digits (m : positive) (e : Z) : Z * Z :=
  let '(num, den) := as_fraction (Zpos m) e in
  shortest_from 17 1 m e (find_decpt 40 num den (decpt_below num den)).

Fixpoint strip_trailing_zeros_rev (l : list ascii) : list ascii :=
  match l with
  | "0"%char :: l' => strip_trailing_zeros_rev l'
  | _ => l
  end.

(** [repr(x)], which is also [str(x)] and the text of [x] in an
    f-string. *)
Definition float_repr (x : float) : string :=
  match x with
  | S754_nan => "nan"
  | S754_infinity s => if s then "-inf" else "inf"
  | S754_zero s => if s then "-0.0" else "0.0"
  | S754_finite s m e =>
      let '(c, p) := shortest_digits m e in
      let all := chars (str_of_int c) in
      let ds := rev (strip_trailing_zeros_rev (rev all)) in
      (* the value printed is 0.ds * 10^decpt *)
      let decpt := p + Z.of_nat (List.length all) in
      let k := Z.of_nat (List.length ds) in
      let body :=
        if (decpt <=? -4) || (16 <? decpt) then
          let ex := decpt - 1 in
          let mant := match ds with
                      | [] => ""
                      | [c] => text [c]
                      | c :: r => text (c :: "."%char :: r)
                      end in
          let exs := str_of_int (Z.abs ex) in
          mant ++ "e" ++ (if ex <? 0 then "-" else "+")
               ++ (if Z.abs ex <? 10 then "0" else "") ++ exs
        else if decpt <=? 0 then
          "0." ++ text (repeat "0"%char (Z.to_nat (- decpt))) ++ text ds
        else if k <=? decpt then
          text ds ++ text (repeat "0"%char (Z.to_nat (decpt - k))) ++ ".0"
        else
          text (firstn (Z.to_nat decpt) ds) ++ "."
               ++ text (skipn (Z.to_nat decpt) ds)
      in (if s then "-" else "") ++ body
  end.

(** [int(s)] for a string [s] in base 10; [None] stands for ValueError.
    Whitespace around the literal is skipped, a sign may lead, and the
    digits may be separated by single underscores. *)
Fixpoint int_digits (prev : option ascii) (acc : Z) (l : list ascii)
  : option Z :=
  match l with
  | [] =>
      match prev with
      | Some "_"%char => None
      | Some _ => Some acc
      | None => None
      end
  | c :: l' =>
      if Ascii.eqb c "_" then
        match prev with
        | Some "_"%char => None
        | Some _ => int_digits (Some c) acc l'
        | None => None
        end
      else if is_digit c then int_digits (Some c) (10 * acc + digit_val c) l'
      else None
  end.

Definition int_of_string (s : string) : option Z :=
  let '(neg, body) := take_sign (trim_with c_isspace (chars s)) in
  match int_digits None 0 body with
  | Some n => Some (if neg then - n else n)
  | None => None
  end.

(* ================================================================== *)
(** * The csv module, excel dialect                                    *)
(* ================================================================== *)

Definition delimiter : ascii := ","%char.
Definition quotechar : ascii := ascii_of_nat 34.
Definition CR : ascii := ascii_of_nat 13.
Definition LF : ascii := ascii_of_nat 10.
Definition lineterminator : list ascii := [CR; LF].

(** [csv.field_size_limit()], the default. *)
Definition field_limit : Z := 131072.

(** ** Writer (QUOTE_MINIMAL, doublequote) *)

(** Characters that force a field into quotes. *)
Definition special (c : ascii) : bool :=
  Ascii.eqb c delimiter || Ascii.eqb c quotechar
  || Ascii.eqb c CR || Ascii.eqb c LF.

(** The body of a field: every quote character is doubled. *)
Fixpoint escape_quotes (l : list ascii) : list ascii :=
  match l with
  | [] => []
  | c :: l' =>
      if Ascii.eqb c quotechar
      then quotechar :: quotechar :: escape_quotes l'
      else c :: escape_quotes l'
  end.

(** [join_append]: one field as it is written. *)
Definition write_field (f : list ascii) : list ascii :=
  if existsb special f
  then (quotechar :: escape_quotes f ++ [quotechar])%list
  else f.

Fixpoint join_fields (fs : list (list ascii)) : list ascii :=
  match fs with
  | [] => []
  | [f] => write_field f
  | f :: fs' => (write_field f ++ delimiter :: join_fields fs')%list
  end.

(** [writer.writerow]: the fields joined by the delimiter, a lone empty
    field written as two quotes, then the line terminator. *)
Definition writerow (fs : list (list ascii)) : list ascii :=
  match fs with
  | [[]] => [quotechar; quotechar] ++ lineterminator
  | _ => join_fields fs ++ lineterminator
  end%list.

(** ** Text file iteration with [newline=""]

    Lines end after LF, after CR LF, or after a CR that no LF follows;
    the endings are kept.  [cur] is the line read so far, reversed. *)
Fixpoint split_lines (cur : list ascii) (l : list ascii)
  : list (list ascii) :=
  match l with
  | [] =>
      match cur with
      | [] => []
      | _ => [rev cur]
      end
  | c :: l' =>
      if Ascii.eqb c LF then rev (c :: cur) :: split_lines [] l'
      else if Ascii.eqb c CR then
        match l' with
        | d :: l'' =>
            if Ascii.eqb d LF
            then rev (d :: c :: cur) :: split_lines [] l''
            else rev (c :: cur) :: split_lines [] l'
        | [] => [rev (c :: cur)]
        end
      else split_lines (c :: cur) l'
  end.

(** ** Reader

    The states of the parser of _csv.c that the excel dialect can
    reach; the escape states need an escapechar, and it has none. *)
Inductive ParserState :=
  | START_RECORD | START_FIELD | IN_FIELD | IN_QUOTED_FIELD
  | QUOTE_IN_QUOTED_FIELD | EAT_CRNL.

Definition ParserState_eqb (a b : ParserState) : bool :=
  match a, b with
  | START_RECORD, START_RECORD | START_FIELD, START_FIELD
  | IN_FIELD, IN_FIELD | IN_QUOTED_FIELD, IN_QUOTED_FIELD
  | QUOTE_IN_QUOTED_FIELD, QUOTE_IN_QUOTED_FIELD | EAT_CRNL, EAT_CRNL => true
  | _, _ => false
  end.

(** What the parser is fed: a character, or the end-of-line mark that
    follows every line. *)
Inductive Input := Ch (c : ascii) | EOL.

Record Reader := mkReader {
  state : ParserState;
  field : list ascii;            (* the field being read *)
  fields : list (list ascii)     (* the fields of the record so far *)
}.

Definition reader_reset : Reader := mkReader START_RECORD [] [].

(** [parse_add_char]; [None] is csv.Error (field larger than the
    limit). *)
Definition parse_add_char (r : Reader) (c : ascii) : option Reader :=
  if field_limit <=? Z.of_nat (List.length (field r)) then None
  else Some (mkReader (state r) (field r ++ [c]) (fields r))%list.

Definition parse_save_field (r : Reader) : Reader :=
  mkReader (state r) [] (fields r ++ [field r])%list.

Definition set_state (s : ParserState) (r : Reader) : Reader :=
  mkReader s (field r) (fields r).

Definition is_newline (i : Input) : bool :=
  match i with
  | Ch c => Ascii.eqb c LF || Ascii.eqb c CR
  | EOL => false
  end.

Definition is_char (a : ascii) (i : Input) : bool :=
  match i with
  | Ch c => Ascii.eqb c a
  | EOL => false
  end.

(** After a record ends: back to START_RECORD at the end of the line,
    otherwise the rest of the line ending is eaten. *)
Definition after_record (i : Input) : ParserState :=
  match i with
  | EOL => START_RECORD
  | Ch _ => EAT_CRNL
  end.

(** The START_FIELD case, which START_RECORD falls through to. *)
Definition start_field (r : Reader) (i : Input) : option Reader :=
  match i with
  | EOL => Some (set_state START_RECORD (parse_save_field r))
  | Ch c =>
      if is_newline i then Some (set_state EAT_CRNL (parse_save_field r))
      else if Ascii.eqb c quotechar then Some (set_state IN_QUOTED_FIELD r)
      else if Ascii.eqb c delimiter then Some (parse_save_field r)
      else option_map (set_state IN_FIELD) (parse_add_char r c)
  end.

(** [parse_process_char]; [None] is csv.Error. *)
Definition parse_process_char (r : Reader) (i : Input) : option Reader :=
  match state r with
  | START_RECORD =>
      match i with
      | EOL => Some r
      | Ch c =>
          if is_newline i then Some (set_state EAT_CRNL r)
          else start_field (set_state START_FIELD r) i
      end
  | START_FIELD => start_field r i
  | IN_FIELD =>
      match i with
      | EOL => Some (set_state START_RECORD (parse_save_field r))
      | Ch c =>
          if is_newline i then Some (set_state EAT_CRNL (parse_save_field r))
          else if Ascii.eqb c delimiter
          then Some (set_state START_FIELD (parse_save_field r))
          else parse_add_char r c
      end
  | IN_QUOTED_FIELD =>
      match i with
      | EOL => Some r
      | Ch c =>
          if Ascii.eqb c quotechar then Some (set_state QUOTE_IN_QUOTED_FIELD r)
          else parse_add_char r c
      end
  | QUOTE_IN_QUOTED_FIELD =>
      match i with
      | EOL => Some (set_state START_RECORD (parse_save_field r))
      | Ch c =>
          if Ascii.eqb c quotechar
          then option_map (set_state IN_QUOTED_FIELD) (parse_add_char r c)
          else if Ascii.eqb c delimiter
          then Some (set_state START_FIELD (parse_save_field r))
          else if is_newline i
          then Some (set_state EAT_CRNL (parse_save_field r))
          else option_map (set_state IN_FIELD) (parse_add_char r c)
      end
  | EAT_CRNL =>
      match i with
      | EOL => Some (set_state START_RECORD r)
      | Ch c => if is_newline i then Some r else None
      end
  end.

(** One line: its characters, then the end-of-line mark. *)
Fixpoint feed_chars (r : Reader) (l : list ascii) : option Reader :=
  match l with
  | [] => Some r
  | c :: l' =>
      match parse_process_char r (Ch c) with
      | Some r' => feed_chars r' l'
      | None => None
      end
  end.

Definition feed_line (r : Reader) (l : list ascii) : option Reader :=
  match feed_chars r l with
  | Some r' => parse_process_char r' EOL
  | None => None
  end.

(** All the records of the reader over the given lines
    ([Reader_iternext] until the input ends).  A record is complete
    when a line leaves the parser in START_RECORD; at the end of the
    input a record cut short inside a quoted field is still returned. *)
Fixpoint read_records (r : Reader) (lines : list (list ascii))
  : option (list (list (list ascii))) :=
  match lines with
  | [] =>
      match field r, state r with
      | [], IN_QUOTED_FIELD | _ :: _, _ => Some [fields (parse_save_field r)]
      | [], _ => Some []
      end
  | l :: rest =>
      match feed_line r l with
      | None => None
      | Some r' =>
          if ParserState_eqb (state r') START_RECORD
          then option_map (cons (fields r')) (read_records reader_reset rest)
          else read_records r' rest
      end
  end.

(** [list(csv.reader(f))] for a file of the given content. *)
Definition csv_reader (content : list ascii)
  : option (list (list (list ascii))) :=
  read_records reader_reset (split_lines [] content).

(* ================================================================== *)
(** * The program state and its effects                                *)
(* ================================================================== *)

(** One student: the dict with the keys of FIELDNAMES. *)
Record Student := mkStudent { roll : string; name : string; marks : string }.

Definition FIELDNAMES : list string := ["roll"; "name"; "marks"].
Definition START_ROLL : Z := 1001.

(** What an operation can end with instead of returning.  The first
    three are Python's exceptions.  [NotARoster] is not one: it marks a
    file whose rows are not three-field rows under the header of
    FIELDNAMES; csv.DictReader still builds dicts from such rows (with
    None values, or other keys), and those are outside [Student]. *)
Inductive Exn := ValueError | CsvError | EOFError | NotARoster.

Inductive Outcome (A : Type) :=
  | Ok (a : A)
  | Raise (e : Exn).
Arguments Ok {A} a.
Arguments Raise {A} e.

(** The world an operation runs in: the content of students.csv (if the
    file exists), the lines waiting on the console, what was printed
    (one entry per [print] call or [input] prompt), and the number of
    times [save_students] has rewritten the file. *)
Record World := mkWorld {
  csv_file : option string;
  stdin : list string;
  stdout : list string;
  saves : nat
}.

Definition M (A : Type) : Type := World -> Outcome A * World.

Definition ret {A} (a : A) : M A := fun w => (Ok a, w).
Definition raise {A} (e : Exn) : M A := fun w => (Raise e, w).
Definition bind {A B} (c : M A) (k : A -> M B) : M B :=
  fun w =>
    match c w with
    | (Ok a, w') => k a w'
    | (Raise e, w') => (Raise e, w')
    end.

Notation "x <- c ;; k" := (bind c (fun x => k))
  (at level 61, c at next level, right associativity).
Notation "c ;; k" := (bind c (fun _ => k))
  (at level 61, right associativity).

(** [print(s)] *)
Definition print (s : string) : M unit :=
  fun w => (Ok tt, mkWorld (csv_file w) (stdin w) (stdout w ++ [s])%list (saves w)).

(** [input(prompt)]: EOFError when the console has no line left. *)
Definition input (prompt : string) : M string :=
  fun w =>
    let out := (stdout w ++ [prompt])%list in
    match stdin w with
    | [] => (Raise EOFError, mkWorld (csv_file w) [] out (saves w))
    | l :: rest => (Ok l, mkWorld (csv_file w) rest out (saves w))
    end.

(** ** The record store *)

Definition row_of_student (s : Student) : list (list ascii) :=
  [chars (roll s); chars (name s); chars (marks s)].

(** The text [save_students] writes: the header row, then one row per
    student, in order. *)
Definition file_text (students : list Student) : string :=
  text (writerow (map chars FIELDNAMES)
        ++ List.concat (map (fun s => writerow (row_of_student s)) students))%list.

(** [ensure_file_exists] *)
Definition ensure_file_exists : M unit :=
  fun w =>
    match csv_file w with
    | None => (Ok tt, mkWorld (Some (file_text [])) (stdin w) (stdout w) (saves w))
    | Some _ => (Ok tt, w)
    end.

(** A row under the header of FIELDNAMES as a student. *)
Definition student_of_row (r : list (list ascii)) : option Student :=
  match r with
  | [a; b; c] => Some (mkStudent (text a) (text b) (text c))
  | _ => None
  end.

Fixpoint students_of_rows (rows : list (list (list ascii)))
  : option (list Student) :=
  match rows with
  | [] => Some []
  | r :: rows' =>
      match student_of_row r, students_of_rows rows' with
      | Some s, Some l => Some (s :: l)
      | _, _ => None
      end
  end.

Definition nonblank (r : list (list ascii)) : bool :=
  match r with
  | [] => false
  | _ => true
  end.

Fixpoint strings_eqb (a b : list string) : bool :=
  match a, b with
  | [], [] => true
  | x :: a', y :: b' => String.eqb x y && strings_eqb a' b'
  | _, _ => false
  end.

(** [list(csv.DictReader(f))]: the first row gives the keys, blank rows
    are skipped, every other row becomes a dict. *)
Definition dict_reader (content : string) : Outcome (list Student) :=
  match csv_reader (chars content) with
  | None => Raise CsvError
  | Some [] => Ok []
  | Some (header :: rows) =>
      match filter nonblank rows with
      | [] => Ok []
      | data =>
          if strings_eqb (map text header) FIELDNAMES
          then match students_of_rows data with
               | Some l => Ok l
               | None => Raise NotARoster
               end
          else Raise NotARoster
      end
  end.

(** [load_students] *)
Definition load_students : M (list Student) :=
  ensure_file_exists ;;
  fun w =>
    match csv_file w with
    | Some content => (dict_reader content, w)
    | None => (Ok [], w)
    end.

(** [save_students] *)
Definition save_students (students : list Student) : M unit :=
  fun w =>
    (Ok tt, mkWorld (Some (file_text students)) (stdin w) (stdout w) (S (saves w))).

(* ================================================================== *)
(** * The operations                                                   *)
(* ================================================================== *)

(** The numeric rolls [generate_roll] collects, in order; ValueError
    where [int(r)] would fail. *)
Fixpoint numeric_rolls (students : list Student) : Outcome (list Z) :=
  match students with
  | [] => Ok []
  | s :: rest =>
      let r := strip (roll s) in
      if isdigit r then
        match int_of_string r with
        | None => Raise ValueError
        | Some n =>
            match numeric_rolls rest with
            | Ok l => Ok (n :: l)
            | Raise e => Raise e
            end
        end
      else numeric_rolls rest
  end.

(** [max(l)] on a non-empty list of ints, the first item given apart. *)
Definition max_int (first : Z) (rest : list Z) : Z :=
  fold_left (fun m x => if m <? x then x else m) rest first.

(** [generate_roll] *)
Definition generate_roll (students : list Student) : Outcome string :=
  match students with
  | [] => Ok (str_of_int START_ROLL)
  | _ =>
      match numeric_rolls students with
      | Raise e => Raise e
      | Ok [] => Ok (str_of_int (START_ROLL + Z.of_nat (List.length students)))
      | Ok (n :: ns) => Ok (str_of_int (max_int n ns + 1))
      end
  end.

(** [find_by_roll] *)
Fixpoint find_by_roll (students : list Student) (r : string) : option Student :=
  match students with
  | [] => None
  | s :: rest =>
      if String.eqb (strip (roll s)) (strip r) then Some s
      else find_by_roll rest r
  end.

(** Lifting a pure outcome into an operation. *)
Definition lift {A} (o : Outcome A) : M A := fun w => (o, w).

(** The marks check shared by add and edit: the text to store, or
    [None] when the [try] block raises (unparseable, below 0 or above
    100). *)
Definition checked_marks (marks_input : string) : option string :=
  match float_of_string marks_input with
  | None => None
  | Some m =>
      if f_lt m (float_of_int 0) || f_gt m (float_of_int 100) then None
      else Some (if is_integer m then str_of_int (int_of_float m)
                 else float_repr m)
  end.

(** [add_student] *)
Definition add_student : M unit :=
  students <- load_students ;;
  r <- lift (generate_roll students) ;;
  print (nl ++ "Generated Roll Number: " ++ r) ;;
  name_in <- input "Enter Name: " ;;
  let nm := strip name_in in
  if String.eqb nm "" then print "Name cannot be empty. Aborting add."
  else
    marks_in <- input "Enter Marks (0-100): " ;;
    match checked_marks (strip marks_in) with
    | None =>
        print "Invalid marks. Please use a number between 0 and 100. Aborting add."
    | Some marks_str =>
        save_students (students ++ [mkStudent r nm marks_str])%list ;;
        print ("Student added successfully with Roll " ++ r ++ ".")
    end.

(** [delete_student] *)
Definition delete_student : M unit :=
  students <- load_students ;;
  roll_in <- input "Enter Roll Number to delete: " ;;
  let r := strip roll_in in
  if String.eqb r "" then print "Empty roll. Aborting delete."
  else
    match find_by_roll students r with
    | None => print ("No student found with roll '" ++ r ++ "'.")
    | Some found =>
        confirm_in <- input ("Are you sure you want to delete " ++ name found
                             ++ " (roll " ++ r ++ ")? [y/N]: ") ;;
        let confirm := lower (strip confirm_in) in
        if negb (String.eqb confirm "y") then print "Delete cancelled."
        else
          save_students
            (filter (fun s => negb (String.eqb (strip (roll s)) r)) students) ;;
          print "Student deleted and changes saved."
    end.

(** One line of the table. *)
Definition table_row (a b c : string) : string :=
  pad 10 a ++ " | " ++ pad 30 b ++ " | " ++ pad 6 c.

Definition table_header : list string :=
  [table_row "Roll" "Name" "Marks"; str_repeat "-" 52].

(** The two lines that carry a count. *)
Definition found_line (n : nat) : string :=
  nl ++ "Found " ++ str_of_int (Z.of_nat n) ++ " result(s):".

Definition total_line (n : nat) : string :=
  nl ++ "Total students: " ++ str_of_int (Z.of_nat n) ++ nl.

Fixpoint print_all (l : list string) : M unit :=
  match l with
  | [] => ret tt
  | s :: l' => print s ;; print_all l'
  end.

Definition student_row (s : Student) : string :=
  table_row (roll s) (name s) (marks s).

(** The matches of a search, in store order. *)
Definition search_results (query : string) (students : list Student)
  : list Student :=
  filter (fun s => str_in query (lower (roll s)) || str_in query (lower (name s)))
         students.

(** [search_student] *)
Definition search_student : M unit :=
  students <- load_students ;;
  query_in <- input "Search by Roll or Name (partial allowed): " ;;
  let query := lower (strip query_in) in
  if String.eqb query "" then print "Empty query. Aborting search."
  else
    match search_results query students with
    | [] => print "No matching student records found."
    | results =>
        print (found_line (List.length results)) ;;
        print_all table_header ;;
        print_all (map student_row results) ;;
        print ""
    end.

(** ** Sorting

    [list.sort(key=f)] computes every key first (and leaves the list as
    it was if a key fails), then sorts stably, comparing keys with [<]
    only.  The result of a stable sort is determined by the keys, so
    the model sorts by insertion. *)
Section Sort.
Context {A K : Type}.
Variable lt : K -> K -> bool.
Variable key : A -> K.

(** [x] goes after the items whose key is below its own. *)
Fixpoint insert (x : A) (l : list A) : list A :=
  match l with
  | [] => [x]
  | y :: l' => if lt (key y) (key x) then y :: insert x l' else x :: l
  end.

Fixpoint sort_by (l : list A) : list A :=
  match l with
  | [] => []
  | x :: l' => insert x (sort_by l')
  end.

End Sort.

(** The keys of the numeric sort, if all of them can be computed. *)
Fixpoint int_keys (students : list Student) : option (list Z) :=
  match students with
  | [] => Some []
  | s :: rest =>
      match int_of_string (roll s), int_keys rest with
      | Some n, Some l => Some (n :: l)
      | _, _ => None
      end
  end.

(** The order in which [list_students] shows the records: by the
    integer keys when every roll has one, else by the roll texts. *)
Definition listing_order (students : list Student) : list Student :=
  match int_keys students with
  | Some keys => map snd (sort_by Z.ltb fst (combine keys students))
  | None => sort_by String.ltb roll students
  end.

(** [list_students] *)
Definition list_students (show_header : bool) : M unit :=
  students <- load_students ;;
  match students with
  | [] => print "No student records yet."
  | _ =>
      let sorted := listing_order students in
      (if show_header then print_all table_header else ret tt) ;;
      print_all (map student_row sorted) ;;
      print (total_line (List.length sorted))
  end.

(** The update loop of [edit_student]: the first record whose trimmed
    roll is [r] gets the new name and marks, and the loop breaks. *)
Fixpoint apply_update (r new_name new_marks : string) (students : list Student)
  : list Student :=
  match students with
  | [] => []
  | s :: rest =>
      if String.eqb (strip (roll s)) r
      then mkStudent (roll s) new_name new_marks :: rest
      else s :: apply_update r new_name new_marks rest
  end.

(** [edit_student] *)
Definition edit_student : M unit :=
  students <- load_students ;;
  roll_in <- input "Enter Roll Number to edit: " ;;
  let r := strip roll_in in
  if String.eqb r "" then print "Empty roll. Aborting edit."
  else
    match find_by_roll students r with
    | None => print ("No student found with roll '" ++ r ++ "'.")
    | Some student =>
        print ("Editing " ++ name student ++ " (Roll " ++ roll student ++ ")") ;;
        name_in <- input ("Enter new name [" ++ name student
                          ++ "] (press Enter to keep): ") ;;
        let new_name :=
          if String.eqb (strip name_in) "" then name student else strip name_in in
        marks_in <- input ("Enter new marks [" ++ marks student
                           ++ "] (press Enter to keep): ") ;;
        let new_marks_input := strip marks_in in
        let checked :=
          if String.eqb new_marks_input "" then Some (marks student)
          else checked_marks new_marks_input in
        match checked with
        | None => print "Invalid marks. Aborting edit."
        | Some new_marks_str =>
            save_students (apply_update r new_name new_marks_str students) ;;
            print "Student updated and saved."
        end
    end.

(** The first loop of [topper_and_average]: marks as floats, 0.0 where
    the text does not parse. *)
Definition marks_list (students : list Student) : list float :=
  map (fun s => match float_of_string (marks s) with
                | Some m => m
                | None => f_zero
                end) students.

(** [max(l)] on a non-empty list of floats, the first item given
    apart: a later item replaces the maximum when it is greater. *)
Definition max_float (first : float) (rest : list float) : float :=
  fold_left (fun m x => if f_gt x m then x else m) rest first.

(** The comprehension that selects the toppers: [float()] is applied
    again to every record's marks, outside any [try]. *)
Fixpoint select_toppers (max_marks : float) (students : list Student)
  : Outcome (list Student) :=
  match students with
  | [] => Ok []
  | s :: rest =>
      match float_of_string (marks s) with
      | None => Raise ValueError
      | Some m =>
          match select_toppers max_marks rest with
          | Raise e => Raise e
          | Ok l => Ok (if f_eq m max_marks then s :: l else l)
          end
      end
  end.

Definition topper_line (t : Student) : string :=
  " - " ++ name t ++ " (Roll " ++ roll t ++ ") — " ++ marks t.

(** [topper_and_average] *)
Definition topper_and_average : M unit :=
  students <- load_students ;;
  match students with
  | [] => print "No records to calculate topper/average."
  | _ :: _ =>
      match marks_list students with
      | [] => raise ValueError   (* max() of an empty list; not reached *)
      | first :: rest =>
          let total := fold_left f_add (first :: rest) f_zero in
          let avg :=
            f_div total (float_of_int (Z.of_nat (List.length (first :: rest)))) in
          let avg_rounded := py_round avg 2 in
          let max_marks := max_float first rest in
          toppers <- lift (select_toppers max_marks students) ;;
          print (nl ++ "Average Marks: " ++ float_repr avg_rounded) ;;
          print ("Top Marks: " ++ float_repr max_marks) ;;
          print "Topper(s):" ;;
          print_all (map topper_line toppers) ;;
          print ""
      end
  end.

(* ================================================================== *)
(** * Exports and the menu                                             *)
(* ================================================================== *)

Definition EXPORT_CSV_FILE : string := "students_export.csv".

(** What the program hands to reportlab's [doc.build]: paragraphs with
    the name of their style, spacers, and one table with its column
    widths and the commands of its TableStyle.  The rendering itself is
    the library's. *)
Record StyleCmd := mkStyleCmd {
  cmd : string;
  cell_from : Z * Z;
  cell_to : Z * Z;
  cmd_args : list string
}.

Inductive Flowable :=
  | Paragraph (content style : string)
  | Spacer (width height : Z)
  | Table (data : list (list string)) (colWidths : list Z)
          (style : list StyleCmd).

(** [SimpleDocTemplate(filename, pagesize=...)] with what was built
    into it. *)
Record PdfDoc := mkPdfDoc {
  pdf_filename : string;
  pagesize : string;
  pdf_elems : list Flowable
}.

(** The program with its two export files beside the [World]: the
    content of students_export.csv if it was written, and the document
    built for students_report.pdf if it was. *)
Record System := mkSystem {
  world : World;
  export_file : option string;
  report : option PdfDoc
}.

Definition MS (A : Type) : Type := System -> Outcome A * System.

Definition retS {A} (a : A) : MS A := fun s => (Ok a, s).
Definition bindS {A B} (c : MS A) (k : A -> MS B) : MS B :=
  fun s =>
    match c s with
    | (Ok a, s') => k a s'
    | (Raise e, s') => (Raise e, s')
    end.

Notation "x <<- c ;; k" := (bindS c (fun x => k))
  (at level 61, c at next level, right associativity).
Notation "c ;;; k" := (bindS c (fun _ => k))
  (at level 61, right associativity).

(** An operation on the console and the store, run in the system. *)
Definition on_world {A} (c : M A) : MS A :=
  fun s =>
    let '(o, w') := c (world s) in
    (o, mkSystem w' (export_file s) (report s)).

(** [open(EXPORT_CSV_FILE, "w")] and what is written through it. *)
Definition write_export (content : string) : MS unit :=
  fun s => (Ok tt, mkSystem (world s) (Some content) (report s)).

(** [doc.build(elems)] *)
Definition build_report (d : PdfDoc) : MS unit :=
  fun s => (Ok tt, mkSystem (world s) (export_file s) (Some d)).

(** [export_csv] *)
Definition export_csv : MS unit :=
  students <<- on_world load_students ;;
  match students with
  | [] => on_world (print "No records to export.")
  | _ =>
      write_export (file_text students) ;;;
      on_world (print ("Exported to CSV file: " ++ EXPORT_CSV_FILE))
  end.

(** The rows of the report: the titles, then one row per student. *)
Definition report_data (students : list Student) : list (list string) :=
  ["Roll"; "Name"; "Marks"]
    :: map (fun s => [roll s; name s; marks s]) students.

(** The commands of the table's style; colours and numbers by their
    text in the source. *)
Definition table_style : list StyleCmd :=
  [mkStyleCmd "BACKGROUND" (0, 0) (-1, 0) ["#4B8BBE"];
   mkStyleCmd "TEXTCOLOR" (0, 0) (-1, 0) ["white"];
   mkStyleCmd "GRID" (0, 0) (-1, -1) ["0.5"; "grey"];
   mkStyleCmd "ALIGN" (0, 0) (-1, -1) ["CENTER"];
   mkStyleCmd "VALIGN" (0, 0) (-1, -1) ["MIDDLE"]].

Definition report_elems (students : list Student) : list Flowable :=
  [Paragraph "Student Management System - Report" "Title";
   Spacer 1 12;
   Paragraph ("Total students: " ++ str_of_int (Z.of_nat (List.length students)))
             "Normal";
   Spacer 1 12;
   Table (report_data students) [60; 300; 60] table_style].

(** [export_pdf]; [reportlab_available] is REPORTLAB_AVAILABLE, set
    when the module is imported. *)
Definition export_pdf (reportlab_available : bool) : MS unit :=
  if negb reportlab_available then
    on_world
      (print "reportlab is not installed. Install it with: pip install reportlab")
  else
    students <<- on_world load_students ;;
    let filename := "students_report.pdf" in
    build_report (mkPdfDoc filename "A4" (report_elems students)) ;;;
    on_world (print ("PDF report generated: " ++ filename)).

Definition menu : string :=
  nl ++ "Student Management System - CLI" ++ nl
     ++ "1. Add Student" ++ nl
     ++ "2. Delete Student" ++ nl
     ++ "3. Search Student" ++ nl
     ++ "4. Edit / Update Student" ++ nl
     ++ "5. List All Students" ++ nl
     ++ "6. Topper & Average" ++ nl
     ++ "7. Export to PDF" ++ nl
     ++ "8. Export to CSV" ++ nl
     ++ "9. Exit" ++ nl.

(** [show_menu] *)
Definition show_menu : M unit := print menu.

(** How one turn of the loop of [main] ends. *)
Inductive Step := Continue | Break.

(** The body of the loop of [main]. *)
Definition menu_step (reportlab_available : bool) : MS Step :=
  on_world show_menu ;;;
  choice_in <<- on_world (input "Choose an option (1-9): ") ;;
  let choice := strip choice_in in
  if String.eqb choice "1" then on_world add_student ;;; retS Continue
  else if String.eqb choice "2" then on_world delete_student ;;; retS Continue
  else if String.eqb choice "3" then on_world search_student ;;; retS Continue
  else if String.eqb choice "4" then on_world edit_student ;;; retS Continue
  else if String.eqb choice "5" then on_world (list_students true) ;;; retS Continue
  else if String.eqb choice "6" then on_world topper_and_average ;;; retS Continue
  else if String.eqb choice "7" then export_pdf reportlab_available ;;; retS Continue
  else if String.eqb choice "8" then export_csv ;;; retS Continue
  else if String.eqb choice "9"
  then on_world (print "Exiting. Goodbye!") ;;; retS Break
  else on_world (print "Invalid option. Enter number 1-9.") ;;; retS Continue.

(** The loop of [main], for at most [fuel] turns; [None] when the turns
    run out before the loop ends. *)
Fixpoint main_loop (reportlab_available : bool) (fuel : nat) (s : System)
  : option (Outcome unit * System) :=
  match fuel with
  | O => None
  | S fuel' =>
      match menu_step reportlab_available s with
      | (Raise e, s') => Some (Raise e, s')
      | (Ok Break, s') => Some (Ok tt, s')
      | (Ok Continue, s') => main_loop reportlab_available fuel' s'
      end
  end.

(** [main] *)
Definition main (reportlab_available : bool) (fuel : nat) (s : System)
  : option (Outcome unit * System) :=
  main_loop reportlab_available fuel (snd (on_world ensure_file_exists s)).

(* ================================================================== *)
(** * Notions used to state the properties                             *)
(* ================================================================== *)


(** The number a digit-string roll stands for. *)
Definition roll_number (s : Student) : Z := digits_value (chars (strip (roll s))).

Definition numeric_roll (s : Student) : bool := isdigit (strip (roll s)).

(** A field the reader accepts: no longer than the field size limit. *)
Definition fits (s : string) : Prop := Z.of_nat (String.length s) <= field_limit.

Definition student_fits (s : Student) : Prop :=
  fits (roll s) /\ fits (name s) /\ fits (marks s).



(** An operation from world [w] to world [w'] wrote nothing:
    [save_students] did not run, and the file is the one the initial
    load saw (the file as it was, or the header-only file that
    [ensure_file_exists] creates when there was none). *)
Definition no_write (w w' : World) : Prop :=
  saves w' = saves w
  /\ csv_file w' = csv_file (snd (ensure_file_exists w)).

(** The reader fed one character at a time.  Where the text layer
    would end a line, the end-of-line mark is fed: after LF, after a CR
    that no LF follows, and at the end of the text. *)
Inductive Pending := NoLine | InLine | AfterCR.

Definition end_line (r : Reader)
    (k : Reader -> option (list (list (list ascii))))
  : option (list (list (list ascii))) :=
  match parse_process_char r EOL with
  | None => None
  | Some r' =>
      if ParserState_eqb (state r') START_RECORD
      then option_map (cons (fields r')) (k reader_reset)
      else k r'
  end.

Fixpoint stream (r : Reader) (p : Pending) (l : list ascii)
  : option (list (list (list ascii))) :=
  match l with
  | [] =>
      match p with
      | NoLine => read_records r []
      | _ => end_line r (fun r' => read_records r' [])
      end
  | c :: l' =>
      let normal (r : Reader) :=
        match parse_process_char r (Ch c) with
        | None => None
        | Some r1 =>
            if Ascii.eqb c LF then end_line r1 (fun r2 => stream r2 NoLine l')
            else if Ascii.eqb c CR then stream r1 AfterCR l'
            else stream r1 InLine l'
        end in
      match p with
      | AfterCR => if Ascii.eqb c LF then normal r else end_line r normal
      | _ => normal r
      end
  end.

(** ** Notions used in the proofs about the reader *)

(** A field of the reader within the limit. *)
Definition fits_chars (f : list ascii) : Prop :=
  Z.of_nat (List.length f) <= field_limit.

(** How the line stands after the characters [cur] of it. *)
Definition pending_of (cur : list ascii) : Pending :=
  match cur with
  | [] => NoLine
  | _ => InLine
  end.

(** What [split_lines] does after a CR. *)
Definition lines_after_cr (cur l : list ascii) : list (list ascii) :=
  match l with
  | d :: l'' =>
      if Ascii.eqb d LF
      then rev (d :: CR :: cur) :: split_lines [] l''
      else rev (CR :: cur) :: split_lines [] l
  | [] => [rev (CR :: cur)]
  end.

(** How the line stands after the character [c]. *)
Definition pending_after (c : ascii) : Pending :=
  if Ascii.eqb c LF then NoLine else if Ascii.eqb c CR then AfterCR else InLine.

(** Where the reader stands once it has read the text of a field [f]
    that began in state [st] with the line pending as [p]. *)
Definition field_end (st : ParserState) (f : list ascii)
    (flds : list (list ascii)) (p : Pending) : Reader * Pending :=
  match f with
  | [] => (mkReader st [] flds, p)
  | _ =>
      if existsb special f
      then (mkReader QUOTE_IN_QUOTED_FIELD f flds, InLine)
      else (mkReader IN_FIELD f flds, InLine)
  end.

Definition field_start (st : ParserState) : Prop :=
  st = START_RECORD \/ st = START_FIELD.

(** A reader all of whose fields are within the limit. *)
Definition bounded (r : Reader) : Prop :=
  fits_chars (field r) /\ Forall fits_chars (fields r).

(** ** Notions used in the properties of the other operations *)

(** An operation only takes lines from the front of the console
    input: what is left is a suffix of what there was. *)
Definition consuming {A} (c : M A) : Prop :=
  forall w, exists read, stdin w = (read ++ stdin (snd (c w)))%list.

Definition consumingS {A} (c : MS A) : Prop :=
  forall s, exists read,
    stdin (world s) = (read ++ stdin (world (snd (c s))))%list.

(** An operation that leaves the file and the count of saves alone. *)
Definition reads_only {A} (c : M A) : Prop :=
  forall w, csv_file (snd (c w)) = csv_file w /\ saves (snd (c w)) = saves w.

(** The three console lines of a turn of the menu that ends with
    [last]. *)
Definition turn (last : string) : list string :=
  [menu; "Choose an option (1-9): "; last].

(** A line that is none of the options of the menu. *)
Definition invalid_option (l : string) : Prop :=
  ~ In (strip l) ["1"; "2"; "3"; "4"; "5"; "6"; "7"; "8"; "9"].

(** The system after the menu and the prompt, with the line taken. *)
Definition prompted (s : System) (rest : list string) : System :=
  mkSystem (mkWorld (csv_file (world s)) rest
              (stdout (world s) ++ [menu; "Choose an option (1-9): "])%list
              (saves (world s)))
           (export_file s) (report s).

(** How a run of invalid options ends: with the Exit option, or with
    the input exhausted at the prompt. *)
Definition ending (tail : list string) : Outcome unit * list string :=
  match tail with
  | [] => (Raise EOFError, [menu; "Choose an option (1-9): "])
  | _ :: _ => (Ok tt, turn "Exiting. Goodbye!")
  end.

(** The trimmed roll of [s] is the trimmed [r]. *)
Definition has_roll (r : string) (s : Student) : Prop :=
  strip (roll s) = strip r.

(** A float that is a number. *)
Definition is_number (x : float) : bool :=
  match x with
  | S754_nan => false
  | _ => true
  end.

(** The place of a float that is a number in the order of the
    floats: by sign, then exponent, then mantissa. *)
Definition rank (x : float) : Z * Z * Z :=
  match x with
  | S754_infinity true => (-2, 0, 0)
  | S754_finite true m e => (-1, - e, - Zpos m)
  | S754_finite false m e => (1, e, Zpos m)
  | S754_infinity false => (2, 0, 0)
  | _ => (0, 0, 0)
  end.

Definition rank_lt (a b : Z * Z * Z) : Prop :=
  let '(a1, a2, a3) := a in
  let '(b1, b2, b3) := b in
  a1 < b1 \/ (a1 = b1 /\ (a2 < b2 \/ (a2 = b2 /\ a3 < b3))).

(** The records whose roll reads as the integer [k], and those whose
    marks read as a float equal to [x]. *)
Definition has_int_key (k : Z) (s : Student) : bool :=
  match int_of_string (roll s) with
  | Some n => Z.eqb n k
  | None => false
  end.

Definition has_marks (x : float) (s : Student) : bool :=
  match float_of_string (marks s) with
  | Some m => f_eq m x
  | None => false
  end.

(** The value [int(s)] reads from the digits of [str(n)], by Horner's
    rule on the decimal digits. *)
Fixpoint horner (d : Decimal.uint) (acc : Z) : Z :=
  match d with
  | Decimal.Nil => acc
  | Decimal.D0 l => horner l (10 * acc + 0)
  | Decimal.D1 l => horner l (10 * acc + 1)
  | Decimal.D2 l => horner l (10 * acc + 2)
  | Decimal.D3 l => horner l (10 * acc + 3)
  | Decimal.D4 l => horner l (10 * acc + 4)
  | Decimal.D5 l => horner l (10 * acc + 5)
  | Decimal.D6 l => horner l (10 * acc + 6)
  | Decimal.D7 l => horner l (10 * acc + 7)
  | Decimal.D8 l => horner l (10 * acc + 8)
  | Decimal.D9 l => horner l (10 * acc + 9)
  end.

(* ================================================================== *)
(** * The model at work                                                *)
(* ================================================================== *)

(** Values of CPython 3 for the same inputs. *)
Example float_of_string_tenth :
  float_of_string " 0.1 " = Some (S754_finite false 7205759403792794 (-56)).
Proof. vm_compute. reflexivity. Qed.

Example float_of_string_overflow :
  float_of_string "-1e400" = Some (S754_infinity true).
Proof. vm_compute. reflexivity. Qed.

Example float_of_string_underscores :
  float_of_string "1_0.5" = float_of_string "10.5"
  /\ float_of_string "1__0" = None /\ float_of_string "abc" = None.
Proof. vm_compute. repeat split; reflexivity. Qed.

Example float_repr_examples :
  float_repr (S754_finite false 7205759403792794 (-56)) = "0.1"
  /\ float_repr (S754_finite false 5404319552844596 (-54)) = "0.30000000000000004"
  /\ float_repr (float_of_int 65) = "65.0"
  /\ float_repr (float_of_decimal false 1 (-5)) = "1e-05".
Proof. vm_compute. repeat split; reflexivity. Qed.

Example py_round_half_even :
  py_round (float_of_decimal false 125 (-3)) 2 = float_of_decimal false 12 (-2)
  /\ py_round (float_of_decimal false 2675 (-3)) 2 = float_of_decimal false 267 (-2).
Proof. vm_compute. repeat split; reflexivity. Qed.

Example int_of_string_examples :
  int_of_string " +1_000 " = Some 1000 /\ int_of_string "007" = Some 7
  /\ int_of_string "1 2" = None /\ int_of_string "" = None.
Proof. vm_compute. repeat split; reflexivity. Qed.

Example csv_reader_quoted :
  option_map (map (map text))
    (csv_reader (chars ("a,b" ++ nl ++ text [quotechar] ++ "x,y" ++ nl ++ "z"
                          ++ text [quotechar; quotechar; quotechar] ++ ",1")))
  = Some [["a"; "b"]; ["x,y" ++ nl ++ "z" ++ text [quotechar]; "1"]].
Proof. vm_compute. reflexivity. Qed.

(** The statistics of the specification's example: marks 50, 90, 90,
    30 give the average 65.0, the top marks 90.0 and two toppers. *)
Example topper_and_average_example :
  stdout (snd (topper_and_average
                 (mkWorld (Some (file_text [mkStudent "1001" "A" "50";
                                            mkStudent "1002" "B" "90";
                                            mkStudent "1003" "C" "90";
                                            mkStudent "1004" "D" "30"]))
                          [] [] 0)))
  = [nl ++ "Average Marks: 65.0"; "Top Marks: 90.0"; "Topper(s):";
     " - B (Roll 1002) — 90"; " - C (Roll 1003) — 90"; ""].
Proof. vm_compute. reflexivity. Qed.

(* ================================================================== *)
(** * Properties of the text primitives                                *)
(* ================================================================== *)

Lemma text_chars (s : string) : text (chars s) = s.
Proof. apply string_of_list_ascii_of_string. Qed.

Lemma chars_text (l : list ascii) : chars (text l) = l.
Proof. apply list_ascii_of_string_of_list_ascii. Qed.

Lemma chars_inj (s t : string) : chars s = chars t -> s = t.
Proof.
  intros H. rewrite <- (text_chars s), <- (text_chars t). now rewrite H.
Qed.

Lemma chars_app (s t : string) : chars (s ++ t) = (chars s ++ chars t)%list.
Proof.
  induction s as [|c s IH]; simpl; [reflexivity|]. unfold chars in *. simpl.
  now rewrite IH.
Qed.

Lemma text_app (a b : list ascii) : text (a ++ b)%list = text a ++ text b.
Proof.
  apply chars_inj. now rewrite chars_app, !chars_text.
Qed.

Lemma length_chars (s : string) : List.length (chars s) = String.length s.
Proof.
  induction s as [|c s IH]; simpl; [reflexivity|]. unfold chars in *. simpl.
  now rewrite IH.
Qed.

(** The ten decimal digits, spelled out. *)
Lemma digit_cases (c : ascii) :
  is_digit c = true ->
  In c ["0"; "1"; "2"; "3"; "4"; "5"; "6"; "7"; "8"; "9"]%char.
Proof.
  destruct c as [[] [] [] [] [] [] [] []]; intros H;
    try discriminate H; simpl; tauto.
Qed.

Ltac by_digit c H :=
  let D := fresh "D" in
  pose proof (digit_cases c H) as D; simpl in D;
  repeat (destruct D as [D|D]; [subst c|]); [..|contradiction].

Lemma digit_not_space (c : ascii) : is_digit c = true -> c_isspace c = false.
Proof. intros H. by_digit c H; reflexivity. Qed.

Lemma digit_not_underscore (c : ascii) :
  is_digit c = true -> Ascii.eqb c "_" = false.
Proof. intros H. by_digit c H; reflexivity. Qed.

Lemma take_sign_digit (c : ascii) (l : list ascii) :
  is_digit c = true -> take_sign (c :: l) = (false, c :: l).
Proof. intros H. by_digit c H; reflexivity. Qed.

Lemma drop_while_head (p : ascii -> bool) (l : list ascii) :
  (forall c l', l = c :: l' -> p c = false) -> drop_while p l = l.
Proof.
  destruct l as [|c l']; simpl; [reflexivity|]. intros H.
  now rewrite (H c l' eq_refl).
Qed.

Lemma trim_digits (l : list ascii) :
  forallb is_digit l = true -> trim_with c_isspace l = l.
Proof.
  intros H. rewrite forallb_forall in H. unfold trim_with.
  rewrite (drop_while_head c_isspace l).
  - rewrite drop_while_head; [apply rev_involutive|].
    intros c l' E. apply digit_not_space, H, in_rev. rewrite E. now left.
  - intros c l' E. apply digit_not_space, H. rewrite E. now left.
Qed.

Lemma int_digits_digits (l : list ascii) :
  forall acc c0,
    is_digit c0 = true -> forallb is_digit l = true ->
    int_digits (Some c0) acc l
    = Some (fold_left (fun a c => 10 * a + digit_val c) l acc).
Proof.
  induction l as [|c l IH]; intros acc c0 H0 H; simpl.
  - by_digit c0 H0; reflexivity.
  - simpl in H. apply andb_prop in H. destruct H as [Hc Hl].
    rewrite (digit_not_underscore c Hc), Hc. now apply IH.
Qed.

(** On a digit string [int()] cannot fail. *)
Lemma int_of_digit_string (r : string) :
  isdigit r = true -> int_of_string r = Some (digits_value (chars r)).
Proof.
  unfold isdigit, int_of_string, digits_value.
  destruct (chars r) as [|c l] eqn:E; [discriminate|]. intros H.
  rewrite (trim_digits _ H). simpl in H. apply andb_prop in H.
  destruct H as [Hc Hl]. rewrite (take_sign_digit c l Hc). simpl.
  rewrite (digit_not_underscore c Hc), Hc.
  now rewrite (int_digits_digits l _ c Hc Hl).
Qed.

(* ================================================================== *)
(** * The roll generator                                               *)
(* ================================================================== *)

Lemma numeric_rolls_total (students : list Student) :
  numeric_rolls students = Ok (map roll_number (filter numeric_roll students)).
Proof.
  induction students as [|s rest IH]; simpl; [reflexivity|].
  unfold numeric_roll at 1. destruct (isdigit (strip (roll s))) eqn:D.
  - rewrite (int_of_digit_string _ D), IH. reflexivity.
  - exact IH.
Qed.

Lemma max_int_spec (rest : list Z) :
  forall first,
    In (max_int first rest) (first :: rest)
    /\ forall x, In x (first :: rest) -> x <= max_int first rest.
Proof.
  unfold max_int. induction rest as [|y rest IH]; intros first; simpl.
  - split; [now left|]. intros x [<-|[]]. lia.
  - destruct (IH (if first <? y then y else first)) as [Hin Hmax].
    split.
    + destruct Hin as [E|Hin]; [|now right; right].
      rewrite <- E. destruct (first <? y); [right; now left|now left].
    + intros x Hx.
      assert (Hf : (if first <? y then y else first)
                   <= fold_left (fun m x0 => if m <? x0 then x0 else m) rest
                        (if first <? y then y else first))
        by (apply Hmax; now left).
      destruct Hx as [E|[E|Hx]]; [| |apply Hmax; now right];
        subst x; destruct (Z.ltb_spec first y); lia.
Qed.




(* ================================================================== *)
(** * Effects of loading and saving                                    *)
(* ================================================================== *)

(** Loading changes nothing but a missing file, which it creates. *)
Lemma load_students_world (w w1 : World) (o : Outcome (list Student)) :
  load_students w = (o, w1) ->
  w1 = snd (ensure_file_exists w)
  /\ stdin w1 = stdin w /\ stdout w1 = stdout w /\ saves w1 = saves w
  /\ exists content, csv_file w1 = Some content /\ o = dict_reader content.
Proof.
  unfold load_students, bind, ensure_file_exists.
  destruct (csv_file w) as [c|] eqn:E; simpl; rewrite ?E; intros H;
    inversion H; subst; simpl; rewrite ?E; repeat split; eauto.
Qed.

(** When the file exists, a run that wrote nothing left it as it was. *)
Lemma no_write_same_file (w w' : World) (content : string) :
  csv_file w = Some content -> no_write w w' -> csv_file w' = Some content.
Proof.
  intros E [_ H]. rewrite H. unfold ensure_file_exists. now rewrite E.
Qed.

(** A store that was not written loads as before. *)
Lemma no_write_same_records (w w1 w' : World) (students : list Student) :
  load_students w = (Ok students, w1) -> no_write w w' ->
  fst (load_students w') = Ok students.
Proof.
  intros L [_ H]. apply load_students_world in L.
  destruct L as [-> [_ [_ [_ [c [Ec Eo]]]]]]. rewrite Ec in H.
  unfold load_students, bind, ensure_file_exists. rewrite H. simpl.
  rewrite H. simpl. now rewrite Eo.
Qed.

Ltac start_op L :=
  let W := fresh "W" in
  pose proof (load_students_world _ _ _ L) as W;
  destruct W as [W [? [? [? _]]]];
  unfold bind; rewrite L; unfold bind, lift, input, print, ret, save_students;
  simpl.

(* ================================================================== *)
(** * Add                                                              *)
(* ================================================================== *)

Lemma checked_marks_rejects (marks_input : string) :
  (float_of_string marks_input = None
   \/ exists m, float_of_string marks_input = Some m
                /\ (f_lt m (float_of_int 0) = true
                    \/ f_gt m (float_of_int 100) = true)) ->
  checked_marks marks_input = None.
Proof.
  unfold checked_marks. intros [->|[m [-> [H|H]]]].
  - reflexivity.
  - now rewrite H.
  - rewrite H. now rewrite orb_true_r.
Qed.








(* ================================================================== *)
(** * Trimming and lookup                                              *)
(* ================================================================== *)

Lemma drop_while_idem (p : ascii -> bool) (l : list ascii) :
  drop_while p (drop_while p l) = drop_while p l.
Proof.
  induction l as [|c l IH]; simpl; [reflexivity|].
  destruct (p c) eqn:E; [exact IH|]. simpl. now rewrite E.
Qed.

Lemma drop_while_suffix (p : ascii -> bool) (l : list ascii) :
  exists pre, l = (pre ++ drop_while p l)%list.
Proof.
  induction l as [|c l [pre IH]]; simpl; [now exists []|].
  destruct (p c); [|now exists []]. exists (c :: pre). simpl. now rewrite <- IH.
Qed.

Lemma drop_while_first (p : ascii -> bool) (l : list ascii) c t :
  drop_while p l = c :: t -> p c = false.
Proof.
  induction l as [|d l IH]; simpl; [discriminate|].
  destruct (p d) eqn:E; [exact IH|]. intros H. inversion H. now subst.
Qed.

Lemma trim_with_idem (p : ascii -> bool) (l : list ascii) :
  trim_with p (trim_with p l) = trim_with p l.
Proof.
  unfold trim_with.
  set (a := drop_while p l). set (b := drop_while p (rev a)).
  assert (Hb : drop_while p (rev b) = rev b).
  { destruct (rev b) as [|c t] eqn:E; [reflexivity|].
    destruct (drop_while_suffix p (rev a)) as [pre Hpre]. fold b in Hpre.
    assert (Ha : a = (c :: t ++ rev pre)%list).
    { rewrite <- (rev_involutive a), Hpre, rev_app_distr, E. reflexivity. }
    simpl. now rewrite (drop_while_first p l c (t ++ rev pre)%list Ha). }
  rewrite Hb, rev_involutive. unfold b. now rewrite drop_while_idem.
Qed.

Lemma strip_idem (s : string) : strip (strip s) = strip s.
Proof. unfold strip. now rewrite chars_text, trim_with_idem. Qed.

Lemma find_by_roll_none (students : list Student) (r : string) :
  find_by_roll students r = None
  <-> forall s, In s students -> strip (roll s) <> strip r.
Proof.
  induction students as [|s rest IH]; simpl.
  - split; [intros _ x []|reflexivity].
  - destruct (String.eqb_spec (strip (roll s)) (strip r)) as [E|E].
    + split; [discriminate|]. intros H. exfalso. apply (H s); auto.
    + rewrite IH. split.
      * intros H x [<-|Hx]; auto.
      * intros H x Hx. apply H. now right.
Qed.

(* ================================================================== *)
(** * Delete                                                           *)
(* ================================================================== *)

(** A confirmed delete saves the records whose trimmed roll differs
    from the input. *)
Lemma delete_student_confirmed (w w1 : World) (students : list Student)
    (roll_in confirm_in : string) (rest : list string) :
  load_students w = (Ok students, w1) ->
  stdin w = roll_in :: confirm_in :: rest ->
  strip roll_in <> "" ->
  (exists s, In s students /\ strip (roll s) = strip roll_in) ->
  lower (strip confirm_in) = "y" ->
  let remaining :=
    filter (fun s => negb (String.eqb (strip (roll s)) (strip roll_in)))
           students in
  fst (delete_student w) = Ok tt
  /\ saves (snd (delete_student w)) = S (saves w)
  /\ csv_file (snd (delete_student w)) = Some (file_text remaining)
  /\ (forall s, In s remaining
                <-> In s students /\ strip (roll s) <> strip roll_in).
Proof.
  intros L Hin Hne [s0 [Hs0 Er]] Hyes remaining.
  unfold delete_student. start_op L. rewrite H, Hin. simpl.
  destruct (String.eqb_spec (strip roll_in) ""); [contradiction|]. simpl.
  destruct (find_by_roll students (strip roll_in)) as [found|] eqn:F.
  - simpl. rewrite Hyes. simpl. rewrite H1.
    split; [reflexivity|]. split; [reflexivity|]. split; [reflexivity|].
    intros s. unfold remaining. rewrite filter_In. split.
    + intros [Hs Hd]. split; [assumption|].
      destruct (String.eqb_spec (strip (roll s)) (strip roll_in));
        [discriminate|assumption].
    + intros [Hs Hd]. split; [assumption|].
      destruct (String.eqb_spec (strip (roll s)) (strip roll_in));
        [contradiction|reflexivity].
  - exfalso. rewrite find_by_roll_none in F. apply (F s0 Hs0).
    now rewrite strip_idem.
Qed.

(** C5, as the code has it.  On a store that loads, Delete writes
    nothing when the trimmed roll is empty, when no record has that
    trimmed roll, or when the answer to the confirmation, once trimmed
    and lowercased, is not "y"; on such a "y" it saves the records
    whose trimmed roll differs from the input, in their original
    order. *)
Theorem delete_student_spec (w w1 : World) (students : list Student) :
  load_students w = (Ok students, w1) ->
  (forall roll_in rest,
      stdin w = roll_in :: rest -> strip roll_in = "" ->
      fst (delete_student w) = Ok tt /\ no_write w (snd (delete_student w)))
  /\ (forall roll_in rest,
      stdin w = roll_in :: rest ->
      (forall s, In s students -> strip (roll s) <> strip roll_in) ->
      fst (delete_student w) = Ok tt /\ no_write w (snd (delete_student w)))
  /\ (forall roll_in confirm_in rest,
      stdin w = roll_in :: confirm_in :: rest ->
      lower (strip confirm_in) <> "y" ->
      fst (delete_student w) = Ok tt /\ no_write w (snd (delete_student w)))
  /\ (forall roll_in confirm_in rest,
      stdin w = roll_in :: confirm_in :: rest ->
      strip roll_in <> "" ->
      (exists s, In s students /\ strip (roll s) = strip roll_in) ->
      lower (strip confirm_in) = "y" ->
      let remaining :=
        filter (fun s => negb (String.eqb (strip (roll s)) (strip roll_in)))
               students in
      fst (delete_student w) = Ok tt
      /\ saves (snd (delete_student w)) = S (saves w)
      /\ csv_file (snd (delete_student w)) = Some (file_text remaining)
      /\ (forall s, In s remaining
                    <-> In s students /\ strip (roll s) <> strip roll_in)).
Proof.
  intros L. split; [|split; [|split]].
  - intros roll_in rest Hin He. unfold delete_student, no_write.
    start_op L. rewrite H, Hin, He. simpl. rewrite H1, W. auto.
  - intros roll_in rest Hin Hnone. unfold delete_student, no_write.
    start_op L. rewrite H, Hin. simpl.
    destruct (String.eqb (strip roll_in) ""); simpl; [rewrite H1, W; auto|].
    assert (F : find_by_roll students (strip roll_in) = None).
    { apply find_by_roll_none. intros s Hs. rewrite strip_idem. auto. }
    rewrite F. simpl. rewrite H1, W. auto.
  - intros roll_in confirm_in rest Hin Hno. unfold delete_student, no_write.
    start_op L. rewrite H, Hin. simpl.
    destruct (String.eqb (strip roll_in) ""); simpl; [rewrite H1, W; auto|].
    destruct (find_by_roll students (strip roll_in)); simpl;
      [|rewrite H1, W; auto].
    destruct (String.eqb_spec (lower (strip confirm_in)) "y"); [contradiction|].
    simpl. rewrite H1, W. auto.
  - intros roll_in confirm_in rest Hin Hne Hex Hyes.
    now apply (delete_student_confirmed w w1 students roll_in confirm_in rest).
Qed.

Lemma delete_student_spec_witness :
  let students := [mkStudent "1001" "A" "50"; mkStudent " 1002" "B" "60";
                   mkStudent "1002" "C" "70"; mkStudent "1003" "D" "80"] in
  let w := mkWorld (Some (file_text students)) [" 1002 "; " Y "] [] 0 in
  let remaining :=
    filter (fun s => negb (String.eqb (strip (roll s)) (strip " 1002 ")))
           students in
  fst (delete_student w) = Ok tt
  /\ saves (snd (delete_student w)) = S (saves w)
  /\ csv_file (snd (delete_student w)) = Some (file_text remaining)
  /\ (forall s, In s remaining
                <-> In s students /\ strip (roll s) <> strip " 1002 ").
Proof.
  intros students w.
  refine (proj2 (proj2 (proj2
            (delete_student_spec w (snd (load_students w)) students eq_refl)))
            " 1002 " " Y " [] eq_refl _ _ eq_refl).
  - discriminate.
  - exists (mkStudent "1002" "C" "70"). split; [simpl; tauto|reflexivity].
Defined.

(** C5, as stated, fails: the answer " y " is not the letter y in
    either case, and yet the record is deleted, because the answer is
    trimmed before it is compared. *)
Lemma delete_confirmation_is_trimmed :
  lower " y " <> "y"
  /\ ~ no_write
        (mkWorld (Some (file_text [mkStudent "1001" "Asha" "50";
                                   mkStudent "1002" "Bela" "60"]))
                 ["1002"; " y "] [] 0)
        (snd (delete_student
                (mkWorld (Some (file_text [mkStudent "1001" "Asha" "50";
                                           mkStudent "1002" "Bela" "60"]))
                         ["1002"; " y "] [] 0)))
  /\ csv_file
       (snd (delete_student
               (mkWorld (Some (file_text [mkStudent "1001" "Asha" "50";
                                          mkStudent "1002" "Bela" "60"]))
                        ["1002"; " y "] [] 0)))
     = Some (file_text [mkStudent "1001" "Asha" "50"]).
Proof.
  split; [discriminate|]. split; [|vm_compute; reflexivity].
  intros [H _]. vm_compute in H. discriminate H.
Qed.

(* ================================================================== *)
(** * Edit                                                             *)
(* ================================================================== *)

(** On a store that loads, when the roll to edit exists and the new
    marks text is not empty and either does not parse as a float or
    parses below 0 or above 100, Edit stops with its message and writes
    nothing: the file is as it was and loads as the same records, so
    the name typed in the same edit is not stored either. *)
Lemma edit_student_invalid_marks (w w1 : World) (students : list Student)
    (roll_in name_in marks_in : string) (rest : list string) :
  load_students w = (Ok students, w1) ->
  stdin w = roll_in :: name_in :: marks_in :: rest ->
  strip roll_in <> "" ->
  (exists s, In s students /\ strip (roll s) = strip roll_in) ->
  strip marks_in <> "" ->
  (float_of_string (strip marks_in) = None
   \/ exists m, float_of_string (strip marks_in) = Some m
                /\ (f_lt m (float_of_int 0) = true
                    \/ f_gt m (float_of_int 100) = true)) ->
  fst (edit_student w) = Ok tt
  /\ no_write w (snd (edit_student w))
  /\ fst (load_students (snd (edit_student w))) = Ok students
  /\ last (stdout (snd (edit_student w))) "" = "Invalid marks. Aborting edit.".
Proof.
  intros L Hin Hroll [s0 [Hs0 Er]] Hmarks Hbad.
  assert (Hc : checked_marks (strip marks_in) = None)
    by now apply checked_marks_rejects.
  assert (Core : fst (edit_student w) = Ok tt
                 /\ no_write w (snd (edit_student w))
                 /\ last (stdout (snd (edit_student w))) ""
                    = "Invalid marks. Aborting edit.").
  { unfold edit_student, no_write. start_op L. rewrite H, Hin. simpl.
    destruct (String.eqb_spec (strip roll_in) ""); [contradiction|]. simpl.
    destruct (find_by_roll students (strip roll_in)) as [student|] eqn:F.
    - simpl.
      destruct (String.eqb_spec (strip marks_in) ""); [contradiction|].
      rewrite Hc. simpl. rewrite H1, W.
      repeat split. now rewrite last_last.
    - exfalso. rewrite find_by_roll_none in F. apply (F s0 Hs0).
      now rewrite strip_idem. }
  destruct Core as [C1 [C2 C3]]. repeat split; try assumption; try apply C2.
  apply (no_write_same_records w w1); assumption.
Qed.

Example edit_student_invalid_marks_example :
  let students := [mkStudent "1001" "Asha" "50"; mkStudent "1002" "Bela" "60"] in
  let w := mkWorld (Some (file_text students)) ["1002"; "Bina"; "101"] [] 0 in
  fst (edit_student w) = Ok tt
  /\ no_write w (snd (edit_student w))
  /\ fst (load_students (snd (edit_student w))) = Ok students
  /\ last (stdout (snd (edit_student w))) "" = "Invalid marks. Aborting edit.".
Proof.
  intros students w.
  refine (edit_student_invalid_marks w (snd (load_students w)) students
            "1002" "Bina" "101" [] eq_refl eq_refl _ _ _ _).
  - discriminate.
  - exists (mkStudent "1002" "Bela" "60"). split; [simpl; tauto|reflexivity].
  - discriminate.
  - right. exists (float_of_int 101). split; [reflexivity|]. right. reflexivity.
Qed.

(** C3 (the code departs from it).  The marks text nan parses to a
    float that is not in [0, 100], but it is neither below 0 nor above
    100 in a comparison, so the check lets it through: Edit does not
    abort, and saves the record with the new name and the marks
    nan. *)
Theorem edit_student_accepts_nan :
  float_of_string "nan" = Some S754_nan
  /\ SFleb (float_of_int 0) S754_nan && SFleb S754_nan (float_of_int 100) = false
  /\ edit_student
       (mkWorld (Some (file_text [mkStudent "1001" "Asha" "50"]))
                ["1001"; "Bina"; "nan"] [] 0)
     = (Ok tt,
        mkWorld (Some (file_text [mkStudent "1001" "Bina" "nan"])) []
                ["Enter Roll Number to edit: ";
                 "Editing Asha (Roll 1001)";
                 "Enter new name [Asha] (press Enter to keep): ";
                 "Enter new marks [50] (press Enter to keep): ";
                 "Student updated and saved."]
                1).
Proof. vm_compute. repeat split; reflexivity. Qed.

(** Add has the same check, and takes nan in the same way. *)
Lemma add_student_accepts_nan :
  csv_file (snd (add_student (mkWorld None ["Asha"; "nan"] [] 0)))
  = Some (file_text [mkStudent "1001" "Asha" "nan"]).
Proof. vm_compute. reflexivity. Qed.

(* ================================================================== *)
(** * Duplicate rolls                                                  *)
(* ================================================================== *)

Lemma find_by_roll_first (pre tail : list Student) (s1 : Student) (r : string) :
  (forall s, In s pre -> strip (roll s) <> strip r) ->
  strip (roll s1) = strip r ->
  find_by_roll (pre ++ s1 :: tail) r = Some s1.
Proof.
  intros Hpre E. induction pre as [|x pre IH]; simpl.
  - rewrite E, String.eqb_refl. reflexivity.
  - destruct (String.eqb_spec (strip (roll x)) (strip r)) as [Ex|Ex].
    + exfalso. apply (Hpre x); [now left|assumption].
    + apply IH. intros s Hs. apply Hpre. now right.
Qed.

Lemma apply_update_first (pre tail : list Student) (s1 : Student)
    (r new_name new_marks : string) :
  (forall s, In s pre -> strip (roll s) <> r) ->
  strip (roll s1) = r ->
  apply_update r new_name new_marks (pre ++ s1 :: tail)
  = (pre ++ mkStudent (roll s1) new_name new_marks :: tail)%list.
Proof.
  intros Hpre E. induction pre as [|x pre IH]; simpl.
  - rewrite E, String.eqb_refl. reflexivity.
  - destruct (String.eqb_spec (strip (roll x)) r) as [Ex|Ex].
    + exfalso. apply (Hpre x); [now left|assumption].
    + f_equal. apply IH. intros s Hs. apply Hpre. now right.
Qed.

(** C9.  When two records [s1] and [s2] of the store have the same
    trimmed roll [r], [s1] being the first with it, Edit of [r] saves
    the store with [s1] alone updated (the records after it, [s2]
    among them, are as they were), and Delete of [r], once confirmed,
    saves the store without any record of trimmed roll [r]. *)
Theorem duplicate_rolls_edit_first_delete_all (w w1 : World)
    (pre mid post : list Student) (s1 s2 : Student) (r : string) :
  let students := (pre ++ s1 :: mid ++ s2 :: post)%list in
  load_students w = (Ok students, w1) ->
  (forall s, In s pre -> strip (roll s) <> r) ->
  strip (roll s1) = r -> strip (roll s2) = r -> r <> "" ->
  (forall roll_in name_in marks_in rest new_marks,
      stdin w = roll_in :: name_in :: marks_in :: rest ->
      strip roll_in = r ->
      (if String.eqb (strip marks_in) "" then Some (marks s1)
       else checked_marks (strip marks_in)) = Some new_marks ->
      let new_name :=
        if String.eqb (strip name_in) "" then name s1 else strip name_in in
      fst (edit_student w) = Ok tt
      /\ csv_file (snd (edit_student w))
         = Some (file_text (pre ++ mkStudent (roll s1) new_name new_marks
                                :: mid ++ s2 :: post)))
  /\ (forall roll_in confirm_in rest,
      stdin w = roll_in :: confirm_in :: rest ->
      strip roll_in = r ->
      lower (strip confirm_in) = "y" ->
      exists remaining,
        fst (delete_student w) = Ok tt
        /\ csv_file (snd (delete_student w)) = Some (file_text remaining)
        /\ (forall s, In s remaining <-> In s students /\ strip (roll s) <> r)
        /\ ~ In s1 remaining /\ ~ In s2 remaining).
Proof.
  intros students L Hpre E1 E2 Hr.
  assert (Er : strip r = r) by (rewrite <- E1; apply strip_idem).
  split.
  - intros roll_in name_in marks_in rest new_marks Hin Hroll Hm new_name.
    unfold edit_student. start_op L. rewrite H, Hin. simpl. rewrite Hroll.
    destruct (String.eqb_spec r ""); [contradiction|]. simpl.
    unfold students.
    rewrite (find_by_roll_first pre _ s1 r);
      [|intros s Hs; rewrite Er; now apply Hpre|now rewrite Er].
    simpl. fold new_name. rewrite Hm. simpl.
    rewrite (apply_update_first pre _ s1 r); auto.
  - intros roll_in confirm_in rest Hin Hroll Hyes.
    pose proof (delete_student_confirmed w w1 students roll_in confirm_in rest
                  L Hin) as D.
    rewrite Hroll in D.
    destruct D as [D1 [_ [D3 D4]]]; auto.
    { exists s1. split; [|assumption]. unfold students. apply in_or_app.
      right. now left. }
    eexists. split; [exact D1|]. split; [exact D3|]. split; [exact D4|].
    split; intros Hs; apply D4 in Hs; destruct Hs as [_ Hs]; contradiction.
Qed.

Lemma duplicate_rolls_edit_first_delete_all_witness :
  let s1 := mkStudent "1002" "Bela" "60" in
  let s2 := mkStudent " 1002 " "Cara" "70" in
  let pre := [mkStudent "1001" "Asha" "50"] in
  let students := (pre ++ s1 :: [] ++ s2 :: [])%list in
  let w := mkWorld (Some (file_text students)) ["1002"; "Bina"; ""] [] 0 in
  fst (edit_student w) = Ok tt
  /\ csv_file (snd (edit_student w))
     = Some (file_text (pre ++ mkStudent "1002" "Bina" "60" :: [] ++ s2 :: [])).
Proof.
  intros s1 s2 pre students w.
  refine (proj1 (duplicate_rolls_edit_first_delete_all w (snd (load_students w))
                   pre [] [] s1 s2 "1002" eq_refl _ eq_refl eq_refl _)
            "1002" "Bina" "" [] "60" eq_refl eq_refl eq_refl).
  - intros s [<-|[]]. discriminate.
  - discriminate.
Defined.

(* ================================================================== *)
(** * Printing                                                         *)
(* ================================================================== *)

Lemma print_all_run (l : list string) (w : World) :
  print_all l w
  = (Ok tt, mkWorld (csv_file w) (stdin w) (stdout w ++ l)%list (saves w)).
Proof.
  revert w. induction l as [|s l IH]; intros w; simpl.
  - unfold ret. rewrite app_nil_r. now destruct w.
  - unfold bind, print. rewrite IH. simpl. now rewrite <- app_assoc.
Qed.

(* ================================================================== *)
(** * Sorting                                                          *)
(* ================================================================== *)

Section SortFacts.
Context {A K : Type}.
Variable lt : K -> K -> bool.
Variable key : A -> K.
Hypothesis lt_asym : forall a b, lt a b = true -> lt b a = false.

Lemma insert_perm (x : A) (l : list A) : Permutation (x :: l) (insert lt key x l).
Proof.
  induction l as [|y l IH]; simpl; [reflexivity|].
  destruct (lt (key y) (key x)); [|reflexivity].
  rewrite perm_swap. now apply perm_skip.
Qed.

Lemma sort_by_perm (l : list A) : Permutation l (sort_by lt key l).
Proof.
  induction l as [|x l IH]; simpl; [reflexivity|].
  rewrite <- insert_perm. now apply perm_skip.
Qed.



End SortFacts.


Lemma string_ltb_asym (a b : string) :
  String.ltb a b = true -> String.ltb b a = false.
Proof.
  unfold String.ltb. rewrite (String.compare_antisym b a).
  destruct (String.compare a b); simpl; congruence.
Qed.


Lemma int_keys_some (students : list Student) (keys : list Z) :
  int_keys students = Some keys ->
  map snd (combine keys students) = students
  /\ Forall (fun p => int_of_string (roll (snd p)) = Some (fst p))
            (combine keys students).
Proof.
  revert keys. induction students as [|s rest IH]; intros keys; simpl.
  - intros H. inversion H. simpl. auto.
  - destruct (int_of_string (roll s)) as [n|] eqn:E; [|discriminate].
    destruct (int_keys rest) as [l|]; [|discriminate].
    intros H. inversion H. subst. destruct (IH l eq_refl) as [M F].
    simpl. rewrite M. split; [reflexivity|]. now constructor.
Qed.

Lemma int_keys_all (students : list Student) :
  (forall s, In s students -> int_of_string (roll s) <> None) ->
  exists keys, int_keys students = Some keys.
Proof.
  induction students as [|s rest IH]; simpl; intros H; [eauto|].
  destruct (int_of_string (roll s)) as [n|] eqn:E;
    [|exfalso; apply (H s); auto].
  destruct IH as [l ->]; [intros x Hx; apply H; auto|]. eauto.
Qed.

Lemma int_keys_none (students : list Student) :
  (exists s, In s students /\ int_of_string (roll s) = None) ->
  int_keys students = None.
Proof.
  intros [s0 [Hin E0]]. induction students as [|s rest IH]; simpl;
    [destruct Hin|].
  destruct Hin as [->|Hin].
  - now rewrite E0.
  - rewrite (IH Hin). now destruct (int_of_string (roll s)).
Qed.


(* ================================================================== *)
(** * List                                                             *)
(* ================================================================== *)



(* ================================================================== *)
(** * Search                                                           *)
(* ================================================================== *)






(* ================================================================== *)
(** * Statistics                                                       *)
(* ================================================================== *)

(** The second pass over the marks raises as soon as one text does not
    parse. *)
Lemma select_toppers_raises (students : list Student) (max_marks : float) :
  (exists s, In s students /\ float_of_string (marks s) = None) ->
  select_toppers max_marks students = Raise ValueError.
Proof.
  intros [s0 [Hin E0]]. induction students as [|s rest IH]; [destruct Hin|].
  simpl. destruct Hin as [->|Hin]; [now rewrite E0|].
  destruct (float_of_string (marks s)); [|reflexivity]. now rewrite (IH Hin).
Qed.

(** Whatever the store, records with unparseable marks make the
    operation end in ValueError, with nothing printed. *)
Lemma topper_and_average_raises (w w1 : World) (students : list Student) :
  load_students w = (Ok students, w1) ->
  (exists s, In s students /\ float_of_string (marks s) = None) ->
  topper_and_average w = (Raise ValueError, w1).
Proof.
  intros L Hbad. unfold topper_and_average. start_op L.
  destruct students as [|s rest]; [destruct Hbad as [? [[] _]]|].
  destruct (marks_list (s :: rest)) as [|first more] eqn:E; [discriminate|].
  unfold bind, lift. now rewrite (select_toppers_raises _ _ Hbad).
Qed.

(** C2 (the code departs from it).  On the store holding the single
    record 1001, A, abc the statistics operation does not complete: the
    first pass takes the marks as 0.0, the selection of the toppers
    parses them again and raises ValueError, and nothing is printed. *)
Theorem topper_and_average_unparseable_marks :
  let w := mkWorld (Some (file_text [mkStudent "1001" "A" "abc"])) [] [] 0 in
  marks_list [mkStudent "1001" "A" "abc"] = [f_zero]
  /\ topper_and_average w = (Raise ValueError, w).
Proof. vm_compute. split; reflexivity. Qed.

(* ================================================================== *)
(** * The reader, character by character                               *)
(* ================================================================== *)

Lemma feed_chars_app (r : Reader) (a b : list ascii) :
  feed_chars r (a ++ b)
  = match feed_chars r a with
    | Some r' => feed_chars r' b
    | None => None
    end.
Proof.
  revert r. induction a as [|c a IH]; intros r; simpl; [reflexivity|].
  destruct (parse_process_char r (Ch c)); [apply IH|reflexivity].
Qed.

Lemma feed_chars_snoc (r0 r r1 : Reader) (cur : list ascii) (c : ascii) :
  feed_chars r0 (rev cur) = Some r ->
  parse_process_char r (Ch c) = Some r1 ->
  feed_chars r0 (rev (c :: cur)) = Some r1.
Proof.
  intros H H1. simpl. rewrite feed_chars_app, H. simpl. now rewrite H1.
Qed.

Lemma read_records_line (r0 r : Reader) (line : list ascii)
    (rest : list (list ascii)) :
  feed_chars r0 line = Some r ->
  read_records r0 (line :: rest) = end_line r (fun r' => read_records r' rest).
Proof.
  intros H. simpl. unfold feed_line, end_line. rewrite H. reflexivity.
Qed.

Lemma end_line_mono (r : Reader) k1 k2 rows :
  (forall r' rows', k1 r' = Some rows' -> k2 r' = Some rows') ->
  end_line r k1 = Some rows -> end_line r k2 = Some rows.
Proof.
  intros Hk. unfold end_line. destruct (parse_process_char r EOL) as [r'|];
    [|discriminate].
  destruct (ParserState_eqb (state r') START_RECORD); [|apply Hk].
  destruct (k1 reader_reset) as [x|] eqn:E; [|discriminate].
  now rewrite (Hk _ _ E).
Qed.

(** Reading line by line agrees with reading character by character,
    whenever the latter gives records. *)
Lemma stream_sound (l : list ascii) :
  (forall cur r0 r rows,
      feed_chars r0 (rev cur) = Some r ->
      stream r (pending_of cur) l = Some rows ->
      read_records r0 (split_lines cur l) = Some rows)
  /\ (forall cur r0 r rows,
      feed_chars r0 (rev (CR :: cur)) = Some r ->
      stream r AfterCR l = Some rows ->
      read_records r0 (lines_after_cr cur l) = Some rows).
Proof.
  induction l as [|c l [IHP IHQ]].
  - split; intros cur r0 r rows F S.
    + destruct cur as [|a cur].
      * simpl in F. inversion F. subst. exact S.
      * change (split_lines (a :: cur) []) with [rev (a :: cur)].
        rewrite (read_records_line r0 r _ _ F). exact S.
    + unfold lines_after_cr. rewrite (read_records_line r0 r _ _ F). exact S.
  - assert (P : forall cur r0 r rows,
               feed_chars r0 (rev cur) = Some r ->
               stream r (pending_of cur) (c :: l) = Some rows ->
               read_records r0 (split_lines cur (c :: l)) = Some rows).
    { intros cur r0 r rows F S.
      assert (S' : match parse_process_char r (Ch c) with
                   | None => None
                   | Some r1 =>
                       if Ascii.eqb c LF
                       then end_line r1 (fun r2 => stream r2 NoLine l)
                       else if Ascii.eqb c CR then stream r1 AfterCR l
                       else stream r1 InLine l
                   end = Some rows)
        by (destruct cur; exact S).
      clear S. destruct (parse_process_char r (Ch c)) as [r1|] eqn:E;
        [|discriminate].
      pose proof (feed_chars_snoc r0 r r1 cur c F E) as F1.
      simpl split_lines. destruct (Ascii.eqb c LF) eqn:ELF.
      - rewrite (read_records_line r0 r1 _ _ F1).
        apply (end_line_mono r1 (fun r2 => stream r2 NoLine l)); [|exact S'].
        intros r' rows' H. now apply (IHP [] r' r').
      - destruct (Ascii.eqb_spec c CR) as [->|NCR].
        + now apply (IHQ cur r0 r1).
        + now apply (IHP (c :: cur) r0 r1). }
    split; [exact P|].
    intros cur r0 r rows F S. unfold lines_after_cr. simpl in S.
    destruct (Ascii.eqb c LF) eqn:ELF.
    + destruct (parse_process_char r (Ch c)) as [r1|] eqn:E; [|discriminate].
      assert (F1 : feed_chars r0 (rev (c :: CR :: cur)) = Some r1)
        by (apply (feed_chars_snoc r0 r r1 (CR :: cur) c F E)).
      rewrite (read_records_line r0 r1 _ _ F1).
      apply (end_line_mono r1 (fun r2 => stream r2 NoLine l)); [|exact S].
      intros r' rows' H. now apply (IHP [] r' r').
    + rewrite (read_records_line r0 r _ _ F).
      apply (end_line_mono r
               (fun r' => stream r' NoLine (c :: l))).
      * intros r' rows' H. now apply (P [] r' r').
      * simpl. rewrite ELF. exact S.
Qed.

Lemma csv_reader_stream (content : list ascii) rows :
  stream reader_reset NoLine content = Some rows ->
  csv_reader content = Some rows.
Proof.
  intros H. unfold csv_reader.
  now apply (proj1 (stream_sound content) [] reader_reset reader_reset).
Qed.

(* ================================================================== *)
(** * Reading back what the writer wrote                               *)
(* ================================================================== *)

Lemma room (fld f : list ascii) (c : ascii) :
  Z.of_nat (List.length fld + List.length (c :: f)) <= field_limit ->
  (field_limit <=? Z.of_nat (List.length fld)) = false
  /\ Z.of_nat (List.length (fld ++ [c]) + List.length f) <= field_limit.
Proof.
  intros H. simpl in H. split; [apply Z.leb_gt; lia|].
  rewrite length_app. simpl. lia.
Qed.

(** Inside quotes every character but the quote is taken as it is,
    line ends included. *)
Lemma stream_quoted_char fld flds p c l :
  Ascii.eqb c quotechar = false ->
  (field_limit <=? Z.of_nat (List.length fld)) = false ->
  stream (mkReader IN_QUOTED_FIELD fld flds) p (c :: l)
  = stream (mkReader IN_QUOTED_FIELD (fld ++ [c]) flds) (pending_after c) l.
Proof.
  intros Hq Hlim. unfold pending_after.
  destruct p; cbn [stream]; destruct (Ascii.eqb c LF) eqn:ELF;
    destruct (Ascii.eqb c CR) eqn:ECR;
    unfold end_line, parse_process_char, parse_add_char;
    cbn [state field fields ParserState_eqb];
    rewrite ?Hq, ?Hlim; cbn [state field fields ParserState_eqb];
    rewrite ?Hq, ?Hlim, ?ELF, ?ECR; reflexivity.
Qed.

Lemma stream_quoted_quote fld flds p l :
  stream (mkReader IN_QUOTED_FIELD fld flds) p (quotechar :: l)
  = stream (mkReader QUOTE_IN_QUOTED_FIELD fld flds) InLine l.
Proof. destruct p; reflexivity. Qed.

Lemma stream_doubled_quote fld flds l :
  (field_limit <=? Z.of_nat (List.length fld)) = false ->
  stream (mkReader QUOTE_IN_QUOTED_FIELD fld flds) InLine (quotechar :: l)
  = stream (mkReader IN_QUOTED_FIELD (fld ++ [quotechar]) flds) InLine l.
Proof.
  intros Hlim. cbn [stream]. unfold parse_process_char, parse_add_char.
  cbn [state field fields]. rewrite Hlim. reflexivity.
Qed.

Lemma stream_quoted_body (f : list ascii) :
  forall fld flds p l,
    Z.of_nat (List.length fld + List.length f) <= field_limit ->
    stream (mkReader IN_QUOTED_FIELD fld flds) p
           (escape_quotes f ++ quotechar :: l)
    = stream (mkReader QUOTE_IN_QUOTED_FIELD (fld ++ f) flds) InLine l.
Proof.
  induction f as [|c f IH]; intros fld flds p l Hlen.
  - simpl escape_quotes. rewrite app_nil_r. apply stream_quoted_quote.
  - destruct (room fld f c Hlen) as [Hlim Hlen'].
    replace (fld ++ c :: f)%list with ((fld ++ [c]) ++ f)%list
      by (now rewrite <- app_assoc).
    simpl escape_quotes. destruct (Ascii.eqb_spec c quotechar) as [->|Hq].
    + change ((quotechar :: quotechar :: escape_quotes f) ++ quotechar :: l)%list
        with (quotechar :: quotechar :: (escape_quotes f ++ quotechar :: l))%list.
      rewrite stream_quoted_quote, (stream_doubled_quote _ _ _ Hlim).
      now apply IH.
    + change ((c :: escape_quotes f) ++ quotechar :: l)%list
        with (c :: (escape_quotes f ++ quotechar :: l))%list.
      rewrite stream_quoted_char; [now apply IH| |exact Hlim].
      now apply Ascii.eqb_neq.
Qed.

Lemma special_false (c : ascii) :
  special c = false ->
  Ascii.eqb c delimiter = false /\ Ascii.eqb c quotechar = false
  /\ Ascii.eqb c CR = false /\ Ascii.eqb c LF = false.
Proof.
  unfold special. intros H.
  repeat (apply orb_false_elim in H; destruct H as [H ?]). auto.
Qed.

(** Outside quotes the plain characters of a field are taken as they
    are. *)
Lemma stream_plain_chars (f : list ascii) :
  forall fld flds l,
    existsb special f = false ->
    Z.of_nat (List.length fld + List.length f) <= field_limit ->
    stream (mkReader IN_FIELD fld flds) InLine (f ++ l)
    = stream (mkReader IN_FIELD (fld ++ f) flds) InLine l.
Proof.
  induction f as [|c f IH]; intros fld flds l Hplain Hlen.
  - now rewrite app_nil_r.
  - simpl in Hplain. apply orb_false_elim in Hplain. destruct Hplain as [Hc Hf].
    destruct (special_false c Hc) as [Hd [Hq [Hcr Hlf]]].
    destruct (room fld f c Hlen) as [Hlim Hlen'].
    replace (fld ++ c :: f)%list with ((fld ++ [c]) ++ f)%list
      by (now rewrite <- app_assoc).
    rewrite <- (IH _ _ _ Hf Hlen').
    change ((c :: f) ++ l)%list with (c :: (f ++ l))%list.
    cbn [stream]. unfold parse_process_char, parse_add_char, is_newline.
    cbn [state field fields]. now rewrite Hlf, Hcr, Hd, Hlim.
Qed.

Lemma stream_write_field st f flds p l :
  field_start st -> p <> AfterCR -> fits_chars f ->
  stream (mkReader st [] flds) p (write_field f ++ l)
  = stream (fst (field_end st f flds p)) (snd (field_end st f flds p)) l.
Proof.
  intros Hst Hp Hfit. destruct f as [|c f]; [reflexivity|].
  unfold write_field, field_end. destruct (existsb special (c :: f)) eqn:E.
  - cbn [fst snd].
    replace ((quotechar :: escape_quotes (c :: f) ++ [quotechar]) ++ l)%list
      with (quotechar :: (escape_quotes (c :: f) ++ quotechar :: l))%list
      by (simpl; now rewrite <- app_assoc).
    pose proof (stream_quoted_body (c :: f) [] flds InLine l Hfit) as B.
    cbn [app] in B. rewrite <- B.
    destruct Hst as [-> | ->]; destruct p; try contradiction; reflexivity.
  - cbn [fst snd]. simpl in E. apply orb_false_elim in E. destruct E as [Hc Hf].
    destruct (special_false c Hc) as [Hd [Hq [Hcr Hlf]]].
    change ((c :: f) ++ l)%list with (c :: (f ++ l))%list.
    pose proof (stream_plain_chars f [c] flds l Hf Hfit) as B.
    cbn [app] in B. rewrite <- B.
    destruct Hst as [-> | ->]; destruct p; try contradiction;
      cbn [stream]; unfold parse_process_char, start_field, parse_add_char,
        is_newline; cbn [state field fields set_state];
      now rewrite Hlf, Hcr, ?Hq, ?Hd.
Qed.

Lemma stream_delimiter st f flds p l :
  field_start st -> p <> AfterCR ->
  stream (fst (field_end st f flds p)) (snd (field_end st f flds p))
         (delimiter :: l)
  = stream (mkReader START_FIELD [] (flds ++ [f])) InLine l.
Proof.
  intros Hst Hp. unfold field_end. destruct f as [|c f].
  - destruct Hst as [-> | ->]; destruct p; try contradiction; reflexivity.
  - destruct (existsb special (c :: f)); reflexivity.
Qed.

Lemma stream_crlf f flds l :
  stream (fst (field_end START_FIELD f flds InLine))
         (snd (field_end START_FIELD f flds InLine))
         (CR :: LF :: l)
  = option_map (cons (flds ++ [f])%list) (stream reader_reset NoLine l).
Proof.
  unfold field_end. destruct f as [|c f]; [reflexivity|].
  destruct (existsb special (c :: f)); reflexivity.
Qed.

Lemma writerow3 (a b c : list ascii) :
  writerow [a; b; c]
  = (write_field a ++ delimiter :: write_field b ++ delimiter
       :: write_field c ++ [CR; LF])%list.
Proof.
  assert (E : writerow [a; b; c] = (join_fields [a; b; c] ++ [CR; LF])%list)
    by (now destruct a).
  rewrite E. cbn [join_fields].
  rewrite <- app_assoc. f_equal. cbn [app]. f_equal.
  rewrite <- app_assoc. reflexivity.
Qed.

(** A row of three fields is read back as it was written. *)
Lemma stream_row3 (a b c l : list ascii) :
  fits_chars a -> fits_chars b -> fits_chars c ->
  stream reader_reset NoLine (writerow [a; b; c] ++ l)
  = option_map (cons [a; b; c]) (stream reader_reset NoLine l).
Proof.
  intros Ha Hb Hc. rewrite writerow3. unfold reader_reset.
  assert (N1 : NoLine <> AfterCR) by discriminate.
  assert (N2 : InLine <> AfterCR) by discriminate.
  assert (E : ((write_field a ++ delimiter :: write_field b ++ delimiter
                  :: write_field c ++ [CR; LF]) ++ l)%list
              = (write_field a ++ delimiter :: (write_field b ++ delimiter
                  :: (write_field c ++ CR :: LF :: l)))%list).
  { rewrite <- app_assoc. f_equal. cbn [app]. f_equal.
    rewrite <- app_assoc. f_equal. cbn [app]. f_equal.
    rewrite <- app_assoc. reflexivity. }
  rewrite E.
  rewrite (stream_write_field START_RECORD a [] NoLine _ (or_introl eq_refl) N1 Ha).
  rewrite (stream_delimiter START_RECORD a [] NoLine _ (or_introl eq_refl) N1).
  rewrite (stream_write_field START_FIELD b _ InLine _ (or_intror eq_refl) N2 Hb).
  rewrite (stream_delimiter START_FIELD b _ InLine _ (or_intror eq_refl) N2).
  rewrite (stream_write_field START_FIELD c _ InLine _ (or_intror eq_refl) N2 Hc).
  now rewrite stream_crlf.
Qed.

Lemma fits_chars_of (s : string) : fits s -> fits_chars (chars s).
Proof. unfold fits, fits_chars. now rewrite length_chars. Qed.

(** The rows of a saved file, read character by character. *)
Lemma stream_rows (students : list Student) :
  Forall student_fits students ->
  stream reader_reset NoLine
         (List.concat (map (fun s => writerow (row_of_student s)) students))
  = Some (map row_of_student students).
Proof.
  induction 1 as [|s rest [Hr [Hn Hm]] _ IH]; [reflexivity|].
  cbn [map List.concat]. unfold row_of_student at 1 3.
  rewrite stream_row3; try (now apply fits_chars_of).
  rewrite IH. reflexivity.
Qed.

(** [csv.reader] over a saved file: the header row, then the rows. *)
Lemma csv_reader_file_text (students : list Student) :
  Forall student_fits students ->
  csv_reader (chars (file_text students))
  = Some (map chars FIELDNAMES :: map row_of_student students).
Proof.
  intros H. apply csv_reader_stream. unfold file_text. rewrite chars_text.
  change (map chars FIELDNAMES) with [chars "roll"; chars "name"; chars "marks"].
  rewrite stream_row3; try (unfold fits_chars; vm_compute; discriminate).
  now rewrite (stream_rows students H).
Qed.

Lemma students_of_rows_of_students (students : list Student) :
  students_of_rows (map row_of_student students) = Some students.
Proof.
  induction students as [|[r n m] rest IH]; [reflexivity|].
  simpl. rewrite IH, !text_chars. reflexivity.
Qed.

Lemma filter_nonblank_rows (students : list Student) :
  filter nonblank (map row_of_student students) = map row_of_student students.
Proof.
  induction students as [|s rest IH]; [reflexivity|]. simpl. now rewrite IH.
Qed.

(** What was saved loads back: [DictReader] over the text of
    [save_students] gives the records saved. *)
Lemma dict_reader_file_text (students : list Student) :
  Forall student_fits students ->
  dict_reader (file_text students) = Ok students.
Proof.
  intros H. unfold dict_reader. rewrite (csv_reader_file_text students H).
  rewrite filter_nonblank_rows. destruct students as [|s rest]; [reflexivity|].
  set (all := s :: rest).
  change (map row_of_student all)
    with (row_of_student s :: map row_of_student rest) at 1.
  cbv iota.
  replace (strings_eqb (map text (map chars FIELDNAMES)) FIELDNAMES) with true
    by (vm_compute; reflexivity).
  change (row_of_student s :: map row_of_student rest)
    with (map row_of_student all).
  now rewrite students_of_rows_of_students.
Qed.

Lemma load_after_save (students : list Student) (w : World) :
  Forall student_fits students ->
  load_students (snd (save_students students w))
  = (Ok students, snd (save_students students w)).
Proof.
  intros H. unfold load_students, bind, ensure_file_exists, save_students.
  simpl. now rewrite (dict_reader_file_text students H).
Qed.

(** C10.  For every list of records whose fields are within the
    reader's field size limit (131072 characters), loading the store
    right after [save_students] returns that list: the same records,
    in the same order, with the same field values. *)
Theorem save_then_load (students : list Student) (w : World) :
  Forall student_fits students ->
  let w' := snd (save_students students w) in
  load_students w' = (Ok students, w')
  /\ csv_file w' = Some (file_text students).
Proof.
  intros H w'. split; [now apply load_after_save|reflexivity].
Qed.

Lemma save_then_load_witness :
  let students := [mkStudent "1001" "Rossi, Anna" "90";
                   mkStudent " 7 " ("two" ++ nl ++ "lines") "";
                   mkStudent "" "" ""] in
  let w := mkWorld None [] [] 0 in
  let w' := snd (save_students students w) in
  load_students w' = (Ok students, w')
  /\ csv_file w' = Some (file_text students).
Proof.
  intros students w. apply (save_then_load students w).
  repeat constructor; cbv; discriminate.
Defined.

(* ================================================================== *)
(** * What the reader returns fits the field size limit                *)
(* ================================================================== *)

Lemma bounded_set_state (s : ParserState) (r : Reader) :
  bounded r -> bounded (set_state s r).
Proof. intros H. exact H. Qed.

Lemma bounded_save_field (r : Reader) : bounded r -> bounded (parse_save_field r).
Proof.
  intros [Hf Hfs]. split; simpl.
  - unfold fits_chars. simpl. unfold field_limit. lia.
  - apply Forall_app. split; [exact Hfs|]. now constructor.
Qed.

Lemma bounded_add_char (r r' : Reader) (c : ascii) :
  bounded r -> parse_add_char r c = Some r' -> bounded r'.
Proof.
  intros [Hf Hfs]. unfold parse_add_char.
  destruct (Z.leb_spec field_limit (Z.of_nat (List.length (field r))));
    [discriminate|].
  intros E. inversion E. subst. split; simpl; [|exact Hfs].
  unfold fits_chars. rewrite length_app. simpl. lia.
Qed.

Lemma bounded_add_char_map (s : ParserState) (r r' : Reader) (c : ascii) :
  bounded r -> option_map (set_state s) (parse_add_char r c) = Some r' ->
  bounded r'.
Proof.
  intros B. destruct (parse_add_char r c) as [x|] eqn:E; [|discriminate].
  intros H. inversion H. subst. apply bounded_set_state.
  now apply (bounded_add_char r x c).
Qed.

Ltac bounded_step :=
  match goal with
  | H : Some _ = Some _ |- _ => inversion H; subst; clear H
  | H : None = Some _ |- _ => discriminate H
  | H : option_map (set_state _) (parse_add_char _ _) = Some _ |- _ =>
      apply bounded_add_char_map in H; [exact H|]
  | H : parse_add_char _ _ = Some _ |- _ =>
      apply bounded_add_char in H; [exact H|]
  | |- bounded (set_state _ _) => apply bounded_set_state
  | |- bounded (parse_save_field _) => apply bounded_save_field
  | H : context [if ?b then _ else _] |- _ => destruct b
  end.

Lemma bounded_process (r r' : Reader) (i : Input) :
  bounded r -> parse_process_char r i = Some r' -> bounded r'.
Proof.
  intros B. unfold parse_process_char, start_field.
  destruct (state r); destruct i as [c|]; intros H;
    repeat bounded_step; assumption.
Qed.

Lemma bounded_feed_chars (l : list ascii) :
  forall r r', bounded r -> feed_chars r l = Some r' -> bounded r'.
Proof.
  induction l as [|c l IH]; intros r r' B; simpl.
  - intros H. inversion H. now subst.
  - destruct (parse_process_char r (Ch c)) as [r1|] eqn:E; [|discriminate].
    apply IH. now apply (bounded_process r r1 (Ch c)).
Qed.

Lemma bounded_feed_line (l : list ascii) (r r' : Reader) :
  bounded r -> feed_line r l = Some r' -> bounded r'.
Proof.
  intros B. unfold feed_line. destruct (feed_chars r l) as [r1|] eqn:E;
    [|discriminate].
  apply bounded_process. now apply (bounded_feed_chars l r r1).
Qed.

Lemma bounded_reset : bounded reader_reset.
Proof. split; [unfold fits_chars, field_limit; simpl; lia|constructor]. Qed.

Lemma read_records_bounded (lines : list (list ascii)) :
  forall r rows,
    bounded r -> read_records r lines = Some rows ->
    Forall (Forall fits_chars) rows.
Proof.
  induction lines as [|l rest IH]; intros r rows B; simpl.
  - pose proof (bounded_save_field r B) as [_ Bs]. simpl in Bs.
    destruct (field r); [destruct (state r)|]; intros H; inversion H; subst;
      first [constructor; [exact Bs|constructor] | constructor].
  - destruct (feed_line r l) as [r1|] eqn:E; [|discriminate].
    pose proof (bounded_feed_line l r r1 B E) as B1.
    destruct (ParserState_eqb (state r1) START_RECORD).
    + destruct (read_records reader_reset rest) as [more|] eqn:R; [|discriminate].
      intros H. inversion H. subst. constructor; [apply B1|].
      apply (IH reader_reset more bounded_reset R).
    + apply IH. exact B1.
Qed.

Lemma students_of_rows_fit (rows : list (list (list ascii))) :
  forall students,
    Forall (Forall fits_chars) rows ->
    students_of_rows rows = Some students ->
    Forall student_fits students.
Proof.
  induction rows as [|row rows IH]; intros students B; simpl.
  - intros H. inversion H. constructor.
  - inversion B as [|? ? Brow Brows]; subst.
    destruct (student_of_row row) as [s|] eqn:E; [|discriminate].
    destruct (students_of_rows rows) as [l|]; [|discriminate].
    intros H. inversion H. subst. constructor; [|now apply IH].
    destruct row as [|a [|b [|c [|d row]]]]; try discriminate E.
    inversion E. subst. inversion Brow as [|? ? Fa Br]; subst.
    inversion Br as [|? ? Fb Br']; subst. inversion Br' as [|? ? Fc _]; subst.
    unfold student_fits, fits. simpl.
    rewrite <- !length_chars, !chars_text. auto.
Qed.

(** Every record that loads has fields within the limit. *)
Lemma dict_reader_fits (content : string) (students : list Student) :
  dict_reader content = Ok students -> Forall student_fits students.
Proof.
  unfold dict_reader, csv_reader.
  destruct (read_records reader_reset (split_lines [] (chars content)))
    as [rows|] eqn:R; [|discriminate].
  pose proof (read_records_bounded _ _ _ bounded_reset R) as B.
  destruct rows as [|header rows]; [intros H; inversion H; constructor|].
  inversion B as [|? ? _ Brows]; subst.
  assert (Bd : Forall (Forall fits_chars) (filter nonblank rows)).
  { rewrite Forall_forall in *. intros x Hx. apply Brows.
    apply filter_In in Hx. tauto. }
  destruct (filter nonblank rows) as [|d data];
    [intros H; inversion H; constructor|].
  destruct (strings_eqb (map text header) FIELDNAMES); [|discriminate].
  destruct (students_of_rows (d :: data)) as [l|] eqn:E; [|discriminate].
  intros H. inversion H. subst. now apply (students_of_rows_fit (d :: data)).
Qed.

(** C7.  On a store that loads, saving what was loaded leaves the
    content as it reads: loading again gives the same records, with
    the same fields, in the same order. *)
Theorem load_save_load (w w1 : World) (students : list Student) :
  load_students w = (Ok students, w1) ->
  let w2 := snd (save_students students w1) in
  load_students w2 = (Ok students, w2).
Proof.
  intros L w2. apply load_after_save.
  apply load_students_world in L. destruct L as [_ [_ [_ [_ [c [_ E]]]]]].
  now apply (dict_reader_fits c).
Qed.

Lemma load_save_load_witness :
  let content :=
    "roll,name,marks" ++ nl ++ nl ++ "1001,Asha,90" ++ nl
      ++ " 7 ,B  C,x" ++ nl in
  let w := mkWorld (Some content) [] [] 0 in
  let students := [mkStudent "1001" "Asha" "90"; mkStudent " 7 " "B  C" "x"] in
  let w2 := snd (save_students students (snd (load_students w))) in
  load_students w2 = (Ok students, w2).
Proof.
  intros content w students.
  exact (load_save_load w (snd (load_students w)) students eq_refl).
Defined.

(* ================================================================== *)
(** * Lookup by roll                                                   *)
(* ================================================================== *)

(** X1.  [find_by_roll] returns the first record, in store order,
    whose trimmed roll is the trimmed argument, and nothing exactly
    when no record has it. *)
Theorem find_by_roll_first_match (students : list Student) (r : string) :
  (find_by_roll students r = None
   <-> forall s, In s students -> ~ has_roll r s)
  /\ (forall s,
        find_by_roll students r = Some s
        <-> exists pre post,
              students = (pre ++ s :: post)%list
              /\ (forall x, In x pre -> ~ has_roll r x)
              /\ has_roll r s).
Proof.
  unfold has_roll. split; [apply find_by_roll_none|].
  intros s. split.
  - induction students as [|x rest IH]; simpl; [discriminate|].
    destruct (String.eqb_spec (strip (roll x)) (strip r)) as [E|E].
    + intros H. inversion H. subst. exists [], rest. split; [reflexivity|].
      split; [intros y []|exact E].
    + intros H. destruct (IH H) as [pre [post [-> [Hpre Hs]]]].
      exists (x :: pre), post. split; [reflexivity|]. split; [|exact Hs].
      intros y [<-|Hy]; auto.
  - intros [pre [post [-> [Hpre Hs]]]]. now apply find_by_roll_first.
Qed.

(* ================================================================== *)
(** * The text of an int                                               *)
(* ================================================================== *)

Lemma horner_fold (u : Decimal.uint) :
  forall acc,
    fold_left (fun a c => 10 * a + digit_val c)
              (chars (NilEmpty.string_of_uint u)) acc
    = horner u acc.
Proof.
  unfold chars. induction u; intros acc; simpl; try apply IHu; reflexivity.
Qed.

Lemma horner_pos (u : Decimal.uint) :
  forall acc, horner u (Zpos acc) = Zpos (Pos.of_uint_acc u acc).
Proof.
  induction u; intros acc; cbn [horner Pos.of_uint_acc]; [reflexivity|..];
    rewrite <- IHu; f_equal; lia.
Qed.

Lemma horner_zero (u : Decimal.uint) : horner u 0 = Z.of_N (Pos.of_uint u).
Proof.
  induction u; cbn [horner Pos.of_uint]; [reflexivity|exact IHu|..];
    apply horner_pos.
Qed.

Lemma digits_of_uint (u : Decimal.uint) :
  forallb is_digit (chars (NilEmpty.string_of_uint u)) = true.
Proof. unfold chars. induction u; simpl; auto. Qed.

Lemma str_of_pos (p : positive) :
  str_of_int (Zpos p) = NilEmpty.string_of_uint (Pos.to_uint p).
Proof.
  unfold str_of_int. simpl. unfold NilZero.string_of_uint.
  pose proof (DecimalPos.Unsigned.to_uint_nonnil p) as N.
  destruct (Pos.to_uint p); [contradiction|..]; reflexivity.
Qed.

(** [int(str(n))] is [n], and [str(n)] is a digit string, for [n] not
    negative. *)
Lemma digits_value_str (n : Z) :
  0 <= n -> digits_value (chars (str_of_int n)) = n.
Proof.
  intros H. destruct n as [|p|p]; [reflexivity| |lia].
  rewrite str_of_pos. unfold digits_value.
  rewrite horner_fold, horner_zero, DecimalPos.Unsigned.of_to. reflexivity.
Qed.

Lemma isdigit_str (n : Z) : 0 <= n -> isdigit (str_of_int n) = true.
Proof.
  intros H. destruct n as [|p|p]; [reflexivity| |lia].
  rewrite str_of_pos. unfold isdigit.
  pose proof (digits_of_uint (Pos.to_uint p)) as D.
  pose proof (DecimalPos.Unsigned.to_uint_nonnil p) as N.
  destruct (Pos.to_uint p); [contradiction|..]; exact D.
Qed.

Lemma digit_not_pyspace (c : ascii) : is_digit c = true -> py_isspace c = false.
Proof. intros H. by_digit c H; reflexivity. Qed.

(** Trimming leaves a digit string as it is. *)
Lemma strip_digit_string (r : string) : isdigit r = true -> strip r = r.
Proof.
  unfold isdigit, strip. destruct (chars r) as [|c l] eqn:E; [discriminate|].
  intros H. rewrite forallb_forall in H. unfold trim_with.
  assert (D1 : drop_while py_isspace (c :: l) = c :: l).
  { apply drop_while_head. intros a l' Ea. apply digit_not_pyspace, H.
    rewrite Ea. now left. }
  rewrite D1.
  assert (D2 : drop_while py_isspace (rev (c :: l)) = rev (c :: l)).
  { apply drop_while_head. intros a l' Ea. apply digit_not_pyspace, H, in_rev.
    rewrite Ea. now left. }
  rewrite D2, rev_involutive, <- E. apply text_chars.
Qed.

Lemma digit_val_range (c : ascii) : is_digit c = true -> 0 <= digit_val c <= 9.
Proof. intros H. by_digit c H; vm_compute; split; discriminate. Qed.

Lemma digits_value_nonneg (l : list ascii) :
  forallb is_digit l = true -> 0 <= digits_value l.
Proof.
  unfold digits_value. cut (forall acc, 0 <= acc -> forallb is_digit l = true ->
    0 <= fold_left (fun a c => 10 * a + digit_val c) l acc).
  { intros H. apply H. lia. }
  induction l as [|c l IH]; intros acc Ha H; cbn [fold_left]; [exact Ha|].
  cbn [forallb] in H. apply andb_prop in H. destruct H as [Hc Hl].
  apply IH; [|exact Hl]. pose proof (digit_val_range c Hc). lia.
Qed.

Lemma roll_number_nonneg (s : Student) :
  numeric_roll s = true -> 0 <= roll_number s.
Proof.
  unfold numeric_roll, roll_number, isdigit. intros H.
  destruct (chars (strip (roll s))) as [|c l]; [discriminate|].
  now apply digits_value_nonneg.
Qed.

(* ================================================================== *)
(** * More on the roll generator                                       *)
(* ================================================================== *)

(** The number behind the roll that [generate_roll] returns: it is not
    negative and above every numeric roll of the list. *)
Lemma generate_roll_number (students : list Student) :
  exists m,
    generate_roll students = Ok (str_of_int m)
    /\ 0 <= m
    /\ (forall s, In s students -> numeric_roll s = true -> roll_number s < m)
    /\ ((exists s, In s students /\ numeric_roll s = true) ->
        exists s, In s students /\ numeric_roll s = true
                  /\ m = roll_number s + 1).
Proof.
  unfold generate_roll. destruct students as [|s0 rest].
  - exists START_ROLL. split; [reflexivity|]. split; [discriminate|].
    split; [intros s []|intros [s [[] _]]].
  - rewrite numeric_rolls_total.
    destruct (map roll_number (filter numeric_roll (s0 :: rest))) as [|n ns] eqn:E.
    + exists (START_ROLL + Z.of_nat (List.length (s0 :: rest))).
      assert (Hnone : forall s, In s (s0 :: rest) -> numeric_roll s = true -> False).
      { intros s Hs Hn.
        assert (Hin : In (roll_number s)
                        (map roll_number (filter numeric_roll (s0 :: rest))))
          by (apply in_map, filter_In; now split).
        rewrite E in Hin. destruct Hin. }
      split; [reflexivity|]. split; [unfold START_ROLL; lia|].
      split; [intros s Hs Hn; destruct (Hnone s Hs Hn)|].
      intros [s [Hs Hn]]. destruct (Hnone s Hs Hn).
    + destruct (max_int_spec ns n) as [Hin Hmax].
      assert (Hwit : exists s, In s (s0 :: rest) /\ numeric_roll s = true
                               /\ roll_number s = max_int n ns).
      { rewrite <- E in Hin. apply in_map_iff in Hin.
        destruct Hin as [x [Hx Hf]]. apply filter_In in Hf. destruct Hf.
        exists x. auto. }
      exists (max_int n ns + 1). split; [reflexivity|].
      destruct Hwit as [x [Hx [Hnx Ex]]].
      pose proof (roll_number_nonneg x Hnx) as Hpos.
      split; [lia|]. split.
      * intros s Hs Hn.
        assert (roll_number s <= max_int n ns); [|lia].
        apply Hmax. rewrite <- E. apply in_map, filter_In. now split.
      * intros _. exists x. split; [exact Hx|]. split; [exact Hnx|]. lia.
Qed.

(** A roll that [generate_roll] returned is a digit string that no
    record of the list has. *)
Lemma generated_roll_new (students : list Student) (r : string) :
  generate_roll students = Ok r ->
  isdigit r = true /\ forall s, In s students -> strip (roll s) <> r.
Proof.
  intros Hr. destruct (generate_roll_number students) as [m [E [Hm [Hlt _]]]].
  rewrite Hr in E. inversion E. subst r. split; [now apply isdigit_str|].
  intros s Hs Heq.
  assert (Hn : numeric_roll s = true).
  { unfold numeric_roll. rewrite Heq. now apply isdigit_str. }
  pose proof (Hlt s Hs Hn) as Hlt'. unfold roll_number in Hlt'.
  rewrite Heq, (digits_value_str m Hm) in Hlt'. lia.
Qed.




Lemma filter_perm {A : Type} (f : A -> bool) (l l' : list A) :
  Permutation l l' -> Permutation (filter f l) (filter f l').
Proof.
  induction 1 as [|x l l' _ IH|x y l|l l' l'' _ IH1 _ IH2]; simpl.
  - constructor.
  - destruct (f x); [now constructor|exact IH].
  - destruct (f x), (f y); try reflexivity. apply perm_swap.
  - now transitivity (filter f l').
Qed.

Lemma generate_roll_fallback (students : list Student) :
  filter numeric_roll students = [] ->
  generate_roll students
  = Ok (str_of_int (START_ROLL + Z.of_nat (List.length students))).
Proof.
  intros F. unfold generate_roll. destruct students as [|s rest]; [reflexivity|].
  now rewrite numeric_rolls_total, F.
Qed.

(** X4.  The generated roll does not depend on the order of the
    records. *)
Theorem generate_roll_order (students students' : list Student) :
  Permutation students students' ->
  generate_roll students = generate_roll students'.
Proof.
  intros P.
  destruct (filter numeric_roll students) as [|x l] eqn:F.
  - assert (F' : filter numeric_roll students' = []).
    { apply Permutation_nil. rewrite <- F. apply Permutation_sym.
      now apply filter_perm. }
    rewrite (generate_roll_fallback _ F), (generate_roll_fallback _ F').
    now rewrite (Permutation_length P).
  - destruct (generate_roll_number students) as [m [E [_ [Hlt Hex]]]].
    destruct (generate_roll_number students') as [m' [E' [_ [Hlt' Hex']]]].
    rewrite E, E'. do 2 f_equal.
    assert (Hx : In x students /\ numeric_roll x = true).
    { apply filter_In. rewrite F. now left. }
    destruct Hx as [Hx Hnx].
    assert (Hx' : In x students') by (apply (Permutation_in x P Hx)).
    destruct Hex as [a [Ha [Hna Ea]]]; [now exists x|].
    destruct Hex' as [b [Hb [Hnb Eb]]]; [now exists x|].
    pose proof (Hlt' a (Permutation_in a P Ha) Hna).
    pose proof (Hlt b (Permutation_in b (Permutation_sym P) Hb) Hnb).
    lia.
Qed.

Lemma generate_roll_order_witness :
  generate_roll [mkStudent "1001" "A" "1"; mkStudent "1005" "B" "2"]
  = generate_roll [mkStudent "1005" "B" "2"; mkStudent "1001" "A" "1"].
Proof. apply generate_roll_order. apply perm_swap. Defined.

(* ================================================================== *)
(** * Add, then the store                                              *)
(* ================================================================== *)

(** A world whose file holds the text of records within the limit
    loads as those records. *)
Lemma load_of_file_text (w : World) (students : list Student) :
  csv_file w = Some (file_text students) ->
  Forall student_fits students ->
  load_students w = (Ok students, w).
Proof.
  intros E F. unfold load_students, bind, ensure_file_exists. rewrite E.
  simpl. rewrite E. now rewrite (dict_reader_file_text students F).
Qed.

Lemma loaded_fit (w w1 : World) (students : list Student) :
  load_students w = (Ok students, w1) -> Forall student_fits students.
Proof.
  intros L. apply load_students_world in L.
  destruct L as [_ [_ [_ [_ [c [_ E]]]]]]. now apply (dict_reader_fits c).
Qed.

(** The whole run of a successful Add. *)
Lemma add_student_run (w w1 : World) (students : list Student)
    (name_in marks_in : string) (rest : list string) (marks_str r : string) :
  load_students w = (Ok students, w1) ->
  stdin w = name_in :: marks_in :: rest ->
  strip name_in <> "" ->
  checked_marks (strip marks_in) = Some marks_str ->
  generate_roll students = Ok r ->
  add_student w
  = (Ok tt,
     mkWorld (Some (file_text (students ++ [mkStudent r (strip name_in) marks_str])))
             rest
             (stdout w ++ [nl ++ "Generated Roll Number: " ++ r; "Enter Name: ";
                           "Enter Marks (0-100): ";
                           "Student added successfully with Roll " ++ r ++ "."])
             (S (saves w))).
Proof.
  intros L Hin Hname Hc Hr. unfold add_student. start_op L. rewrite Hr. simpl.
  rewrite H, Hin. simpl.
  destruct (String.eqb_spec (strip name_in) ""); [contradiction|]. simpl.
  rewrite Hc. simpl. rewrite H0, H1, <- !app_assoc. reflexivity.
Qed.



Lemma filter_fresh (students : list Student) (new : Student) (r : string) :
  (forall s, In s students -> strip (roll s) <> r) ->
  strip (roll new) = r ->
  filter (fun s => negb (String.eqb (strip (roll s)) r)) (students ++ [new])
  = students.
Proof.
  intros Hfresh Hnew. rewrite filter_app. simpl.
  rewrite Hnew, String.eqb_refl. simpl. rewrite app_nil_r.
  induction students as [|s rest IH]; [reflexivity|]. simpl.
  destruct (String.eqb_spec (strip (roll s)) r) as [E|E].
  - exfalso. apply (Hfresh s); [now left|exact E].
  - simpl. f_equal. apply IH. intros x Hx. apply Hfresh. now right.
Qed.

(** X6.  Deleting the student that was just added, by the roll Add
    gave it, brings the records back to what they were. *)
Theorem add_then_delete_restores (w w1 : World) (students : list Student)
    (name_in marks_in roll_in confirm_in : string) (rest : list string)
    (marks_str r : string) :
  load_students w = (Ok students, w1) ->
  stdin w = name_in :: marks_in :: roll_in :: confirm_in :: rest ->
  strip name_in <> "" ->
  checked_marks (strip marks_in) = Some marks_str ->
  generate_roll students = Ok r ->
  student_fits (mkStudent r (strip name_in) marks_str) ->
  strip roll_in = r ->
  lower (strip confirm_in) = "y" ->
  let w'' := snd (delete_student (snd (add_student w))) in
  fst (delete_student (snd (add_student w))) = Ok tt
  /\ csv_file w'' = Some (file_text students)
  /\ load_students w'' = (Ok students, w'').
Proof.
  intros L Hin Hname Hc Hr Hfit Hroll Hyes w''. subst w''.
  destruct (generated_roll_new students r Hr) as [Hd Hfresh].
  set (new := mkStudent r (strip name_in) marks_str) in *.
  rewrite (add_student_run w w1 students name_in marks_in
             (roll_in :: confirm_in :: rest) marks_str r L Hin Hname Hc Hr).
  simpl snd. fold new.
  set (w' := mkWorld (Some (file_text (students ++ [new]))) _ _ _).
  assert (L' : load_students w' = (Ok (students ++ [new])%list, w')).
  { apply load_of_file_text; [reflexivity|]. apply Forall_app.
    split; [now apply (loaded_fit w w1)|]. constructor; [exact Hfit|constructor]. }
  assert (Hne : strip roll_in <> "").
  { rewrite Hroll. intros Hz. rewrite Hz in Hd. discriminate Hd. }
  destruct (delete_student_confirmed w' w' _ roll_in confirm_in rest L' eq_refl Hne)
    as [D1 [_ [D3 _]]]; [|exact Hyes|].
  { exists new. split; [apply in_or_app; right; now left|].
    simpl. now rewrite (strip_digit_string r Hd), Hroll. }
  rewrite Hroll, (filter_fresh students new r Hfresh) in D3;
    [|simpl; now apply strip_digit_string].
  split; [exact D1|]. split; [exact D3|].
  apply load_of_file_text; [exact D3|now apply (loaded_fit w w1)].
Qed.

Lemma add_then_delete_restores_witness :
  let students := [mkStudent "1001" "Asha" "50"; mkStudent "x" "Bela" "60"] in
  let w := mkWorld (Some (file_text students))
                   ["Cara"; "70"; " 1002 "; "Y"] [] 0 in
  let w'' := snd (delete_student (snd (add_student w))) in
  fst (delete_student (snd (add_student w))) = Ok tt
  /\ csv_file w'' = Some (file_text students)
  /\ load_students w'' = (Ok students, w'').
Proof.
  intros students w.
  refine (add_then_delete_restores w (snd (load_students w)) students
            "Cara" "70" " 1002 " "Y" [] "70" "1002"
            eq_refl eq_refl _ _ eq_refl _ eq_refl eq_refl).
  - discriminate.
  - vm_compute. reflexivity.
  - repeat split; cbv; discriminate.
Defined.

(* ================================================================== *)
(** * Edit and Delete, then lookup                                     *)
(* ================================================================== *)

Lemma apply_update_same (students : list Student) (r : string) (s : Student) :
  strip r = r ->
  find_by_roll students r = Some s ->
  apply_update r (name s) (marks s) students = students.
Proof.
  intros Er. induction students as [|x rest IH]; simpl; [discriminate|].
  rewrite Er. destruct (String.eqb (strip (roll x)) r).
  - intros H. inversion H. subst. now destruct s.
  - intros H. f_equal. now apply IH.
Qed.

(** X7.  An Edit with both answers left blank saves the records as
    they were: the store is rewritten, with the same content. *)
Theorem edit_student_blank (w w1 : World) (students : list Student)
    (roll_in name_in marks_in : string) (rest : list string) :
  load_students w = (Ok students, w1) ->
  stdin w = roll_in :: name_in :: marks_in :: rest ->
  strip roll_in <> "" ->
  (exists s, In s students /\ has_roll roll_in s) ->
  strip name_in = "" -> strip marks_in = "" ->
  let w' := snd (edit_student w) in
  fst (edit_student w) = Ok tt
  /\ saves w' = S (saves w)
  /\ csv_file w' = Some (file_text students)
  /\ load_students w' = (Ok students, w').
Proof.
  intros L Hin Hroll [s0 [Hs0 Er]] Hn Hm w'. subst w'.
  assert (Core : fst (edit_student w) = Ok tt
                 /\ saves (snd (edit_student w)) = S (saves w)
                 /\ csv_file (snd (edit_student w)) = Some (file_text students)).
  { unfold edit_student. start_op L. rewrite H, Hin. simpl.
    destruct (String.eqb_spec (strip roll_in) ""); [contradiction|]. simpl.
    destruct (find_by_roll students (strip roll_in)) as [student|] eqn:F.
    - simpl. rewrite Hn, Hm. simpl.
      rewrite (apply_update_same students (strip roll_in) student
                 (strip_idem roll_in) F), H1. auto.
    - exfalso. rewrite find_by_roll_none in F. apply (F s0 Hs0).
      rewrite strip_idem. exact Er. }
  destruct Core as [C1 [C2 C3]]. repeat split; try assumption.
  apply load_of_file_text; [exact C3|now apply (loaded_fit w w1)].
Qed.

Lemma edit_student_blank_witness :
  let students := [mkStudent "1001" "Asha" "50"; mkStudent " 1002" "Bela" "x"] in
  let w := mkWorld (Some (file_text students)) ["1002 "; "  "; ""] [] 3 in
  let w' := snd (edit_student w) in
  fst (edit_student w) = Ok tt
  /\ saves w' = S (saves w)
  /\ csv_file w' = Some (file_text students)
  /\ load_students w' = (Ok students, w').
Proof.
  intros students w.
  refine (edit_student_blank w (snd (load_students w)) students
            "1002 " "  " "" [] eq_refl eq_refl _ _ eq_refl eq_refl).
  - discriminate.
  - exists (mkStudent " 1002" "Bela" "x"). split; [simpl; tauto|reflexivity].
Defined.

(** X8.  The update of Edit, for the trimmed roll it is given, changes
    neither the number of records nor any roll; looking the roll up
    afterwards gives the first record that had it, with the new name
    and marks, and the lookup of any other roll gives what it gave
    before. *)
Theorem apply_update_lookup (students : list Student)
    (roll_in new_name new_marks : string) :
  let updated := apply_update (strip roll_in) new_name new_marks students in
  List.length updated = List.length students
  /\ map roll updated = map roll students
  /\ find_by_roll updated roll_in
     = option_map (fun s => mkStudent (roll s) new_name new_marks)
                  (find_by_roll students roll_in)
  /\ (forall other,
        strip other <> strip roll_in ->
        find_by_roll updated other = find_by_roll students other).
Proof.
  intros updated. subst updated.
  induction students as [|x rest [IH1 [IH2 [IH3 IH4]]]]; simpl.
  - repeat split.
  - destruct (String.eqb_spec (strip (roll x)) (strip roll_in)) as [E|E]; simpl.
    + rewrite E, String.eqb_refl. repeat split.
      intros other Ho. destruct (String.eqb_spec (strip roll_in) (strip other));
        [congruence|reflexivity].
    + destruct (String.eqb_spec (strip (roll x)) (strip roll_in));
        [contradiction|].
      split; [now rewrite IH1|]. split; [now rewrite IH2|].
      split; [exact IH3|]. intros other Ho. rewrite (IH4 other Ho). reflexivity.
Qed.

(** X9.  What a confirmed Delete keeps no longer holds the roll, and
    the lookup of any other roll gives what it gave before. *)
Theorem delete_then_lookup (students : list Student) (roll_in : string) :
  let remaining :=
    filter (fun s => negb (String.eqb (strip (roll s)) (strip roll_in)))
           students in
  find_by_roll remaining roll_in = None
  /\ (forall other,
        strip other <> strip roll_in ->
        find_by_roll remaining other = find_by_roll students other).
Proof.
  intros remaining. subst remaining. split.
  - apply find_by_roll_none. intros s Hs. apply filter_In in Hs.
    destruct Hs as [_ Hs].
    destruct (String.eqb_spec (strip (roll s)) (strip roll_in));
      [discriminate|assumption].
  - intros other Ho. induction students as [|x rest IH]; [reflexivity|].
    simpl. destruct (String.eqb_spec (strip (roll x)) (strip roll_in)) as [E|E];
      simpl.
    + rewrite E. destruct (String.eqb_spec (strip roll_in) (strip other));
        [congruence|exact IH].
    + now rewrite IH.
Qed.

(* ================================================================== *)
(** * The listing keeps the store order among equal keys               *)
(* ================================================================== *)

Section Stability.
Context {A K : Type}.
Variable lt : K -> K -> bool.
Variable eqk : K -> K -> bool.
Variable key : A -> K.
Hypothesis eqk_eq : forall a b, eqk a b = true -> a = b.
Hypothesis lt_irrefl : forall a, lt a a = false.

Lemma insert_stable (k : K) (x : A) (l : list A) :
  filter (fun a => eqk (key a) k) (insert lt key x l)
  = filter (fun a => eqk (key a) k) (x :: l).
Proof.
  induction l as [|y l IH]; [reflexivity|]. simpl insert.
  destruct (lt (key y) (key x)) eqn:E; [|reflexivity].
  simpl filter at 1. rewrite IH. simpl.
  destruct (eqk (key y) k) eqn:Ey; destruct (eqk (key x) k) eqn:Ex;
    try reflexivity.
  apply eqk_eq in Ey, Ex. rewrite Ey, Ex, lt_irrefl in E. discriminate E.
Qed.

Lemma sort_by_stable (k : K) (l : list A) :
  filter (fun a => eqk (key a) k) (sort_by lt key l)
  = filter (fun a => eqk (key a) k) l.
Proof.
  induction l as [|x l IH]; [reflexivity|]. simpl sort_by.
  rewrite insert_stable. simpl. now rewrite IH.
Qed.
End Stability.

Lemma filter_map_snd {A B : Type} (f : B -> bool) (l : list (A * B)) :
  filter f (map snd l) = map snd (filter (fun p => f (snd p)) l).
Proof.
  induction l as [|p l IH]; [reflexivity|]. simpl.
  destruct (f (snd p)); simpl; now rewrite IH.
Qed.

Lemma string_ltb_irrefl (a : string) : String.ltb a a = false.
Proof.
  destruct (String.ltb a a) eqn:E; [|reflexivity].
  now rewrite (string_ltb_asym a a E) in E.
Qed.

(** X10.  Among the records listed, those with the same key are in
    store order: the same integer when the rolls are sorted as
    integers, the same text when they are sorted as texts. *)
Theorem listing_order_stable (students : list Student) :
  ((forall s, In s students -> int_of_string (roll s) <> None) ->
   forall k, filter (has_int_key k) (listing_order students)
             = filter (has_int_key k) students)
  /\ ((exists s, In s students /\ int_of_string (roll s) = None) ->
      forall k, filter (fun s => String.eqb (roll s) k) (listing_order students)
                = filter (fun s => String.eqb (roll s) k) students).
Proof.
  unfold listing_order. split.
  - intros Hall k. destruct (int_keys_all _ Hall) as [keys E]. rewrite E.
    destruct (int_keys_some _ _ E) as [M F].
    assert (Agree : forall L, (forall p, In p L -> In p (combine keys students)) ->
              filter (fun p => has_int_key k (snd p)) L
              = filter (fun p => Z.eqb (fst p) k) L).
    { intros L HL. apply filter_ext_in. intros p Hp.
      rewrite Forall_forall in F. unfold has_int_key.
      now rewrite (F p (HL p Hp)). }
    rewrite filter_map_snd, Agree.
    + rewrite (sort_by_stable Z.ltb Z.eqb fst).
      * rewrite <- Agree by auto. rewrite <- filter_map_snd. now rewrite M.
      * intros a b H. now apply Z.eqb_eq.
      * apply Z.ltb_irrefl.
    + intros p Hp.
      apply (Permutation_in p (Permutation_sym (sort_by_perm Z.ltb fst _)) Hp).
  - intros Hsome k. rewrite (int_keys_none _ Hsome).
    apply (sort_by_stable String.ltb String.eqb roll).
    + intros a b H. now apply String.eqb_eq.
    + apply string_ltb_irrefl.
Qed.

Lemma listing_order_stable_witness :
  let students := [mkStudent "7" "A" "1"; mkStudent "3" "B" "2";
                   mkStudent "07" "C" "3"; mkStudent " 7 " "D" "4"] in
  filter (has_int_key 7) (listing_order students)
  = filter (has_int_key 7) students.
Proof.
  intros students.
  apply (proj1 (listing_order_stable students)).
  intros s [<-|[<-|[<-|[<-|[]]]]]; discriminate.
Defined.

(* ================================================================== *)
(** * Statistics on marks that are numbers                             *)
(* ================================================================== *)

Lemma SFltb_rank (x y : float) :
  is_number x = true -> is_number y = true ->
  (SFltb x y = true <-> rank_lt (rank x) (rank y)).
Proof.
  unfold SFltb, rank_lt.
  destruct x as [sx|sx| |sx mx ex]; destruct y as [sy|sy| |sy my ey];
    try discriminate; intros _ _;
    try destruct sx; try destruct sy; cbn [SFcompare rank];
    try (split; [discriminate|lia]); try (split; [lia|reflexivity]);
    change (Pos.compare_cont Eq mx my) with (Pos.compare mx my);
    destruct (Z.compare_spec ex ey); destruct (Pos.compare_spec mx my);
    cbn [CompOpp]; split; intros Hlt; try discriminate Hlt; try reflexivity;
    try lia.
Qed.

Lemma SFltb_false_rank (x y : float) :
  is_number x = true -> is_number y = true ->
  (SFltb x y = false <-> ~ rank_lt (rank x) (rank y)).
Proof.
  intros Hx Hy. rewrite <- (SFltb_rank x y Hx Hy).
  destruct (SFltb x y); split; congruence.
Qed.

Lemma rank_lt_asym (a b : Z * Z * Z) : rank_lt a b -> ~ rank_lt b a.
Proof. destruct a as [[a1 a2] a3], b as [[b1 b2] b3]. unfold rank_lt. lia. Qed.

Lemma rank_ge_trans (a b c : Z * Z * Z) :
  ~ rank_lt a b -> ~ rank_lt b c -> ~ rank_lt a c.
Proof.
  destruct a as [[a1 a2] a3], b as [[b1 b2] b3], c as [[c1 c2] c3].
  unfold rank_lt. lia.
Qed.

Lemma max_float_in (rest : list float) :
  forall first, In (max_float first rest) (first :: rest).
Proof.
  unfold max_float. induction rest as [|y rest IH]; intros first; simpl;
    [now left|].
  destruct (IH (if f_gt y first then y else first)) as [E|Hin];
    [|now right; right].
  rewrite <- E. destruct (f_gt y first); [right; now left|now left].
Qed.

(** No item is greater than [max] of a list of numbers. *)
Lemma max_float_ge (rest : list float) :
  forall first,
    Forall (fun x => is_number x = true) (first :: rest) ->
    forall x, In x (first :: rest) -> f_gt x (max_float first rest) = false.
Proof.
  unfold max_float, f_gt. induction rest as [|y rest IH]; intros first Hnum x Hx.
  - destruct Hx as [<-|[]]. inversion Hnum; subst.
    apply SFltb_false_rank; auto. intros Hr. exact (rank_lt_asym _ _ Hr Hr).
  - inversion Hnum as [|? ? Nf Nrest]; subst.
    inversion Nrest as [|? ? Ny Nrest']; subst. simpl fold_left.
    set (f' := if SFltb first y then y else first).
    assert (Nf' : is_number f' = true) by (unfold f'; now destruct (SFltb first y)).
    assert (Hnum' : Forall (fun x => is_number x = true) (f' :: rest))
      by now constructor.
    pose proof (IH f' Hnum') as G.
    set (M := fold_left (fun m x0 => if SFltb m x0 then x0 else m) rest f') in *.
    assert (NM : is_number M = true).
    { pose proof (max_float_in rest f') as Hin. unfold max_float, f_gt in Hin.
      fold M in Hin. rewrite Forall_forall in Hnum'. now apply Hnum'. }
    assert (Gf' : SFltb M f' = false) by (apply G; now left).
    assert (Nx : is_number x = true)
      by (rewrite Forall_forall in Hnum; now apply Hnum).
    destruct Hx as [Ex|[Ex|Hx]]; [| |apply G; now right]; subst x.
    + apply SFltb_false_rank; auto.
      apply SFltb_false_rank in Gf'; auto.
      apply (rank_ge_trans _ (rank f')); [exact Gf'|].
      unfold f'. destruct (SFltb first y) eqn:E.
      * apply SFltb_rank in E; auto. now apply rank_lt_asym.
      * intros Hr. exact (rank_lt_asym _ _ Hr Hr).
    + apply SFltb_false_rank; auto.
      apply SFltb_false_rank in Gf'; auto.
      apply (rank_ge_trans _ (rank f')); [exact Gf'|].
      unfold f'. destruct (SFltb first y) eqn:E.
      * intros Hr. exact (rank_lt_asym _ _ Hr Hr).
      * now apply SFltb_false_rank in E.
Qed.

Lemma f_eq_refl (x : float) : is_number x = true -> f_eq x x = true.
Proof.
  unfold f_eq, SFeqb. destruct x as [s|s| |s m e]; try discriminate;
    intros _; try destruct s; cbn [SFcompare]; try reflexivity;
    now rewrite Z.compare_refl, Pos.compare_cont_refl.
Qed.

Lemma select_toppers_all (max_marks : float) (students : list Student) :
  (forall s, In s students -> float_of_string (marks s) <> None) ->
  select_toppers max_marks students = Ok (filter (has_marks max_marks) students).
Proof.
  induction students as [|s rest IH]; intros H; [reflexivity|].
  cbn [select_toppers filter].
  destruct (float_of_string (marks s)) as [m|] eqn:E;
    [|exfalso; apply (H s); [now left|exact E]].
  rewrite IH by (intros x Hx; apply H; now right).
  assert (Hs : has_marks max_marks s = f_eq m max_marks)
    by (unfold has_marks; now rewrite E).
  now rewrite Hs.
Qed.

Lemma marks_list_numbers (students : list Student) :
  (forall s, In s students ->
     exists m, float_of_string (marks s) = Some m /\ is_number m = true) ->
  Forall (fun x => is_number x = true) (marks_list students).
Proof.
  intros H. unfold marks_list. apply Forall_forall. intros x Hx.
  apply in_map_iff in Hx. destruct Hx as [s [<- Hs]].
  destruct (H s Hs) as [m [-> Hm]]. exact Hm.
Qed.

Lemma topper_and_average_run (w w1 : World) (students toppers : list Student)
    (first : float) (rest : list float) :
  load_students w = (Ok students, w1) ->
  students <> [] ->
  marks_list students = first :: rest ->
  select_toppers (max_float first rest) students = Ok toppers ->
  topper_and_average w
  = (Ok tt,
     mkWorld (csv_file w1) (stdin w1)
       (stdout w1
          ++ [(nl ++ "Average Marks: "
                  ++ float_repr
                       (py_round
                          (f_div (fold_left f_add (first :: rest) f_zero)
                             (float_of_int
                                (Z.of_nat (List.length (first :: rest))))) 2))%string;
              ("Top Marks: " ++ float_repr (max_float first rest))%string;
              "Topper(s):"]
          ++ map topper_line toppers ++ [""])%list
       (saves w1)).
Proof.
  intros L Hne E S. unfold topper_and_average. unfold bind at 1. rewrite L.
  destruct students as [|s0 more]; [contradiction|]. rewrite E.
  cbv beta iota zeta. unfold bind, lift. rewrite S. unfold print.
  cbn [fst snd csv_file stdin stdout saves]. rewrite print_all_run.
  cbn [fst snd csv_file stdin stdout saves].
  rewrite <- !app_assoc. reflexivity.
Qed.

(** X11.  On a store that loads, is not empty and whose marks all
    parse to floats that are numbers, the statistics complete and write
    nothing; the top marks are the marks of some record and no record
    has greater ones, the toppers printed are the records whose marks
    equal them, in store order, and there is at least one. *)
Theorem topper_and_average_numbers (w w1 : World) (students : list Student) :
  load_students w = (Ok students, w1) ->
  students <> [] ->
  (forall s, In s students ->
     exists m, float_of_string (marks s) = Some m /\ is_number m = true) ->
  exists top average toppers,
    In top (marks_list students)
    /\ (forall x, In x (marks_list students) -> f_gt x top = false)
    /\ average
       = py_round (f_div (fold_left f_add (marks_list students) f_zero)
                         (float_of_int (Z.of_nat (List.length students)))) 2
    /\ toppers = filter (has_marks top) students
    /\ toppers <> []
    /\ fst (topper_and_average w) = Ok tt
    /\ no_write w (snd (topper_and_average w))
    /\ stdout (snd (topper_and_average w))
       = (stdout w
            ++ [(nl ++ "Average Marks: " ++ float_repr average)%string;
                ("Top Marks: " ++ float_repr top)%string; "Topper(s):"]
            ++ map topper_line toppers ++ [""])%list.
Proof.
  intros L Hne Hnum.
  pose proof (marks_list_numbers students Hnum) as Nall.
  assert (Hparse : forall s, In s students -> float_of_string (marks s) <> None).
  { intros s Hs. destruct (Hnum s Hs) as [m [-> _]]. discriminate. }
  destruct (marks_list students) as [|first rest] eqn:E.
  { destruct students; [contradiction|discriminate E]. }
  set (top := max_float first rest).
  exists top, (py_round (f_div (fold_left f_add (first :: rest) f_zero)
                                (float_of_int (Z.of_nat (List.length students)))) 2),
         (filter (has_marks top) students).
  pose proof (max_float_in rest first) as Hin. fold top in Hin.
  split; [exact Hin|]. split; [now apply max_float_ge|].
  split; [reflexivity|]. split; [reflexivity|].
  assert (Hsome : filter (has_marks top) students <> []).
  { rewrite <- E in Hin. unfold marks_list in Hin. apply in_map_iff in Hin.
    destruct Hin as [s [Hs Hin]]. destruct (Hnum s Hin) as [m [Em Nm]].
    rewrite Em in Hs. subst m.
    assert (Hf : In s (filter (has_marks top) students)).
    { apply filter_In. split; [exact Hin|]. unfold has_marks. rewrite Em.
      now apply f_eq_refl. }
    intros Z. rewrite Z in Hf. destruct Hf. }
  split; [exact Hsome|].
  assert (Len : List.length (first :: rest) = List.length students).
  { rewrite <- E. unfold marks_list. apply length_map. }
  pose proof (load_students_world _ _ _ L) as [W [Hi [Ho [Hs _]]]].
  rewrite (topper_and_average_run w w1 students
             (filter (has_marks top) students) first rest L Hne E
             (select_toppers_all top students Hparse)).
  rewrite Len. unfold no_write. cbn [fst snd csv_file stdin stdout saves].
  rewrite Ho, Hs, W. split; [reflexivity|]. split; [auto|]. reflexivity.
Qed.

Lemma topper_and_average_numbers_witness :
  let students := [mkStudent "1001" "A" "50"; mkStudent "1002" "B" " 90.0"] in
  let w := mkWorld (Some (file_text students)) [] [] 0 in
  exists top average toppers,
    In top (marks_list students)
    /\ (forall x, In x (marks_list students) -> f_gt x top = false)
    /\ average
       = py_round (f_div (fold_left f_add (marks_list students) f_zero)
                         (float_of_int (Z.of_nat (List.length students)))) 2
    /\ toppers = filter (has_marks top) students
    /\ toppers <> []
    /\ fst (topper_and_average w) = Ok tt
    /\ no_write w (snd (topper_and_average w))
    /\ stdout (snd (topper_and_average w))
       = (stdout w
            ++ [(nl ++ "Average Marks: " ++ float_repr average)%string;
                ("Top Marks: " ++ float_repr top)%string; "Topper(s):"]
            ++ map topper_line toppers ++ [""])%list.
Proof.
  intros students w.
  refine (topper_and_average_numbers w (snd (load_students w)) students
            eq_refl _ _).
  - discriminate.
  - intros s [<-|[<-|[]]]; eexists; (split; [vm_compute; reflexivity|reflexivity]).
Defined.

(* ================================================================== *)
(** * What the operations do to the console input and to the file      *)
(* ================================================================== *)

Lemma consuming_ret {A} (a : A) : consuming (ret a).
Proof. intros w. now exists []. Qed.

Lemma consuming_lift {A} (o : Outcome A) : consuming (lift o).
Proof. intros w. now exists []. Qed.

Lemma consuming_raise {A} (e : Exn) : consuming (@raise A e).
Proof. intros w. now exists []. Qed.

Lemma consuming_print (s : string) : consuming (print s).
Proof. intros w. now exists []. Qed.

Lemma consuming_input (prompt : string) : consuming (input prompt).
Proof.
  intros w. unfold input. destruct (stdin w) as [|l rest].
  - now exists [].
  - now exists [l].
Qed.

Lemma consuming_save (students : list Student) :
  consuming (save_students students).
Proof. intros w. now exists []. Qed.

Lemma consuming_bind {A B} (c : M A) (k : A -> M B) :
  consuming c -> (forall a, consuming (k a)) -> consuming (bind c k).
Proof.
  intros Hc Hk w. unfold bind. destruct (Hc w) as [r1 E1].
  destruct (c w) as [[a|e] w1]; simpl in E1.
  - destruct (Hk a w1) as [r2 E2]. exists (r1 ++ r2)%list.
    now rewrite <- app_assoc, <- E2.
  - now exists r1.
Qed.

Lemma consuming_print_all (l : list string) : consuming (print_all l).
Proof.
  induction l as [|s l IH]; simpl.
  - apply consuming_ret.
  - apply consuming_bind; [apply consuming_print|intros _; exact IH].
Qed.

Lemma consuming_load : consuming load_students.
Proof.
  intros w. exists []. destruct (load_students w) as [o w1] eqn:L.
  apply load_students_world in L. simpl. symmetry. apply L.
Qed.

Ltac consume :=
  repeat first
    [ apply consuming_print | apply consuming_input | apply consuming_lift
    | apply consuming_ret | apply consuming_raise | apply consuming_print_all
    | apply consuming_load | apply consuming_save
    | apply consuming_bind; [|intros ?]
    | match goal with
      | |- consuming (if ?b then _ else _) => destruct b
      | |- consuming (match ?x with _ => _ end) => destruct x
      | |- consuming (let _ := _ in _) => cbv zeta
      end ].

Lemma consuming_add : consuming add_student.
Proof. unfold add_student. consume. Qed.

Lemma consuming_delete : consuming delete_student.
Proof. unfold delete_student. consume. Qed.

Lemma consuming_search : consuming search_student.
Proof. unfold search_student. consume. Qed.

Lemma consuming_edit : consuming edit_student.
Proof. unfold edit_student. consume. Qed.

Lemma consuming_list (show_header : bool) : consuming (list_students show_header).
Proof. unfold list_students. consume. Qed.

Lemma consuming_topper : consuming topper_and_average.
Proof. unfold topper_and_average. consume. Qed.

Lemma reads_only_ret {A} (a : A) : reads_only (ret a).
Proof. intros w. now split. Qed.

Lemma reads_only_lift {A} (o : Outcome A) : reads_only (lift o).
Proof. intros w. now split. Qed.

Lemma reads_only_raise {A} (e : Exn) : reads_only (@raise A e).
Proof. intros w. now split. Qed.

Lemma reads_only_print (s : string) : reads_only (print s).
Proof. intros w. now split. Qed.

Lemma reads_only_input (prompt : string) : reads_only (input prompt).
Proof. intros w. unfold input. destruct (stdin w); now split. Qed.

Lemma reads_only_bind {A B} (c : M A) (k : A -> M B) :
  reads_only c -> (forall a, reads_only (k a)) -> reads_only (bind c k).
Proof.
  intros Hc Hk w. unfold bind. destruct (Hc w) as [E1 E2].
  destruct (c w) as [[a|e] w1]; simpl in E1, E2.
  - destruct (Hk a w1) as [F1 F2]. split; congruence.
  - now split.
Qed.

Lemma reads_only_print_all (l : list string) : reads_only (print_all l).
Proof.
  induction l as [|s l IH]; simpl.
  - apply reads_only_ret.
  - apply reads_only_bind; [apply reads_only_print|intros _; exact IH].
Qed.

(** An operation that loads the records and then only reads writes
    nothing, however it ends. *)
Lemma reads_only_after_load {A} (k : list Student -> M A) :
  (forall students, reads_only (k students)) ->
  forall w, no_write w (snd (bind load_students k w)).
Proof.
  intros Hk w. unfold bind, no_write.
  destruct (load_students w) as [o w1] eqn:L.
  destruct (load_students_world _ _ _ L) as [W [_ [_ [Hs _]]]].
  destruct o as [students|e].
  - destruct (Hk students w1) as [E1 E2]. rewrite E1, E2, Hs, <- W. now split.
  - simpl. rewrite Hs, <- W. now split.
Qed.

Ltac read_only :=
  repeat first
    [ apply reads_only_print | apply reads_only_input | apply reads_only_lift
    | apply reads_only_ret | apply reads_only_raise | apply reads_only_print_all
    | apply reads_only_bind; [|intros ?]
    | match goal with
      | |- reads_only (if ?b then _ else _) => destruct b
      | |- reads_only (match ?x with _ => _ end) => destruct x
      | |- reads_only (let _ := _ in _) => cbv zeta
      end ].

(** X12.  Search, List and the statistics never write: whatever the
    file holds and whatever is typed, and also when they end in an
    exception, [save_students] has not run and the file is the one the
    initial load saw. *)
Theorem lookups_never_write (w : World) (show_header : bool) :
  no_write w (snd (search_student w))
  /\ no_write w (snd (list_students show_header w))
  /\ no_write w (snd (topper_and_average w)).
Proof.
  split; [|split].
  - unfold search_student. apply reads_only_after_load. intros students.
    read_only.
  - unfold list_students. apply reads_only_after_load. intros students.
    read_only.
  - unfold topper_and_average. apply reads_only_after_load. intros students.
    read_only.
Qed.

(* ================================================================== *)
(** * The exports                                                      *)
(* ================================================================== *)

Lemma on_world_load (s : System) (o : Outcome (list Student)) (w1 : World) :
  load_students (world s) = (o, w1) ->
  on_world load_students s = (o, mkSystem w1 (export_file s) (report s)).
Proof. intros L. unfold on_world. now rewrite L. Qed.

(** X13.  The CSV export writes a copy of the records: on a store that
    loads with records, the export file gets the text [save_students]
    would write, which reads back as the same records; on an empty
    store, and when the load fails, no export file is written.  In
    every case the store is not written and no report is built. *)
Theorem export_csv_copy (s : System) (o : Outcome (list Student)) (w1 : World) :
  load_students (world s) = (o, w1) ->
  let s' := snd (export_csv s) in
  no_write (world s) (world s')
  /\ report s' = report s
  /\ stdin (world s') = stdin (world s)
  /\ match o with
     | Ok [] =>
         fst (export_csv s) = Ok tt
         /\ export_file s' = export_file s
         /\ stdout (world s') = (stdout (world s) ++ ["No records to export."])%list
     | Ok students =>
         fst (export_csv s) = Ok tt
         /\ export_file s' = Some (file_text students)
         /\ dict_reader (file_text students) = Ok students
         /\ stdout (world s')
            = (stdout (world s)
                 ++ ["Exported to CSV file: students_export.csv"])%list
     | Raise e =>
         fst (export_csv s) = Raise e
         /\ export_file s' = export_file s
         /\ stdout (world s') = stdout (world s)
     end.
Proof.
  intros L s'. subst s'. unfold export_csv, bindS.
  rewrite (on_world_load s o w1 L).
  destruct (load_students_world _ _ _ L) as [W [Hi [Ho [Hs _]]]].
  unfold no_write. rewrite <- W.
  destruct o as [[|s0 rest]|e]; simpl; rewrite ?Hi, ?Ho, ?Hs; repeat split.
  apply dict_reader_file_text. now apply (loaded_fit (world s) w1).
Qed.

Lemma export_csv_copy_witness :
  let students := [mkStudent "1001" "Asha, B." "50"] in
  let s := mkSystem (mkWorld (Some (file_text students)) [] [] 0) None None in
  let s' := snd (export_csv s) in
  no_write (world s) (world s')
  /\ report s' = report s
  /\ stdin (world s') = stdin (world s)
  /\ fst (export_csv s) = Ok tt
  /\ export_file s' = Some (file_text students)
  /\ dict_reader (file_text students) = Ok students
  /\ stdout (world s')
     = (stdout (world s) ++ ["Exported to CSV file: students_export.csv"])%list.
Proof.
  intros students s.
  exact (export_csv_copy s (Ok students) (snd (load_students (world s))) eq_refl).
Defined.



(* ================================================================== *)
(** * The menu loop                                                    *)
(* ================================================================== *)

Lemma consumingS_on_world {A} (c : M A) : consuming c -> consumingS (on_world c).
Proof.
  intros H s. unfold on_world. destruct (H (world s)) as [read E].
  exists read. now destruct (c (world s)) as [o w'].
Qed.

Lemma consumingS_bind {A B} (c : MS A) (k : A -> MS B) :
  consumingS c -> (forall a, consumingS (k a)) -> consumingS (bindS c k).
Proof.
  intros Hc Hk s. unfold bindS. destruct (Hc s) as [r1 E1].
  destruct (c s) as [[a|e] s1]; simpl in E1.
  - destruct (Hk a s1) as [r2 E2]. exists (r1 ++ r2)%list.
    now rewrite <- app_assoc, <- E2.
  - now exists r1.
Qed.

Lemma consumingS_write_export (content : string) :
  consumingS (write_export content).
Proof. intros s. now exists []. Qed.

Lemma consumingS_build_report (d : PdfDoc) : consumingS (build_report d).
Proof. intros s. now exists []. Qed.

Lemma consumingS_export_csv : consumingS export_csv.
Proof.
  unfold export_csv. apply consumingS_bind.
  - apply consumingS_on_world, consuming_load.
  - intros [|s0 rest].
    + apply consumingS_on_world, consuming_print.
    + apply consumingS_bind; [apply consumingS_write_export|].
      intros _. apply consumingS_on_world, consuming_print.
Qed.

Lemma consumingS_export_pdf (reportlab_available : bool) :
  consumingS (export_pdf reportlab_available).
Proof.
  unfold export_pdf. destruct reportlab_available; simpl.
  - apply consumingS_bind; [apply consumingS_on_world, consuming_load|].
    intros students. apply consumingS_bind; [apply consumingS_build_report|].
    intros _. apply consumingS_on_world, consuming_print.
  - apply consumingS_on_world, consuming_print.
Qed.

(** An operation of the menu, then the next turn. *)
Lemma continue_after (op : MS unit) (s : System) :
  consumingS op ->
  match bindS op (fun _ => retS Continue) s with
  | (Ok st, s') =>
      st = Continue
      /\ exists read, stdin (world s) = (read ++ stdin (world s'))%list
  | (Raise _, _) => True
  end.
Proof.
  intros H. unfold bindS, retS. destruct (H s) as [read E].
  destruct (op s) as [[u|e] s']; [|exact I]. split; [reflexivity|].
  now exists read.
Qed.

Lemma menu_step_choice (reportlab_available : bool) (s : System)
    (l : string) (rest : list string) :
  stdin (world s) = l :: rest ->
  menu_step reportlab_available s
  = (let choice := strip l in
     if String.eqb choice "1" then on_world add_student ;;; retS Continue
     else if String.eqb choice "2" then on_world delete_student ;;; retS Continue
     else if String.eqb choice "3" then on_world search_student ;;; retS Continue
     else if String.eqb choice "4" then on_world edit_student ;;; retS Continue
     else if String.eqb choice "5" then on_world (list_students true) ;;; retS Continue
     else if String.eqb choice "6" then on_world topper_and_average ;;; retS Continue
     else if String.eqb choice "7" then export_pdf reportlab_available ;;; retS Continue
     else if String.eqb choice "8" then export_csv ;;; retS Continue
     else if String.eqb choice "9"
     then on_world (print "Exiting. Goodbye!") ;;; retS Break
     else on_world (print "Invalid option. Enter number 1-9.") ;;; retS Continue)
      (prompted s rest).
Proof.
  intros E. unfold menu_step. unfold bindS at 1. unfold on_world at 1.
  unfold show_menu, print. cbn [fst snd world]. unfold bindS at 1.
  unfold on_world at 1. unfold input.
  cbn [world csv_file stdin stdout saves export_file report]. rewrite E.
  unfold prompted. rewrite <- app_assoc. reflexivity.
Qed.

Lemma menu_step_eof (reportlab_available : bool) (s : System) :
  stdin (world s) = [] ->
  menu_step reportlab_available s = (Raise EOFError, prompted s []).
Proof.
  intros E. unfold menu_step, bindS, on_world, show_menu, print, input.
  cbn [fst snd world csv_file stdin stdout saves export_file report].
  rewrite E. unfold prompted. rewrite <- app_assoc. reflexivity.
Qed.

(** A turn that does not raise took at least the line of the choice,
    and it ends the loop only when that line is the Exit option. *)
Lemma menu_step_reads (reportlab_available : bool) (s : System) :
  match menu_step reportlab_available s with
  | (Ok st, s') =>
      exists l read,
        stdin (world s) = (l :: read ++ stdin (world s'))%list
        /\ (st = Break -> strip l = "9")
  | (Raise _, _) => True
  end.
Proof.
  destruct (stdin (world s)) as [|l rest] eqn:E.
  { now rewrite (menu_step_eof _ s E). }
  rewrite (menu_step_choice _ s l rest E). cbv zeta.
  assert (K : forall op : MS unit, consumingS op ->
    match bindS op (fun _ => retS Continue) (prompted s rest) with
    | (Ok st, s') =>
        exists l0 read,
          l :: rest = (l0 :: read ++ stdin (world s'))%list
          /\ (st = Break -> strip l0 = "9")
    | (Raise _, _) => True
    end).
  { intros op H. pose proof (continue_after op (prompted s rest) H) as C.
    destruct (bindS op (fun _ => retS Continue) (prompted s rest))
      as [[st|e] s']; [|exact I].
    destruct C as [-> [read R]]. exists l, read. simpl in R. rewrite R.
    split; [reflexivity|discriminate]. }
  repeat match goal with
         | |- context [if String.eqb ?a ?b then _ else _] =>
             destruct (String.eqb_spec a b)
         end;
    try (apply K;
         first [ apply consumingS_export_csv | apply consumingS_export_pdf
               | apply consumingS_on_world;
                 first [ apply consuming_add | apply consuming_delete
                       | apply consuming_search | apply consuming_edit
                       | apply consuming_list | apply consuming_topper
                       | apply consuming_print ] ]).
  simpl. exists l, []. split; [reflexivity|]. intros _. assumption.
Qed.

Lemma main_loop_ends (reportlab_available : bool) :
  forall fuel s,
    (List.length (stdin (world s)) < fuel)%nat ->
    exists o s',
      main_loop reportlab_available fuel s = Some (o, s')
      /\ (o = Ok tt -> exists l, In l (stdin (world s)) /\ strip l = "9").
Proof.
  induction fuel as [|fuel IH]; intros s Hlen; [lia|].
  cbn [main_loop]. pose proof (menu_step_reads reportlab_available s) as R.
  destruct (menu_step reportlab_available s) as [[[|]|e] s1].
  - destruct R as [l [read [E _]]].
    destruct (IH s1) as [o [s' [M Hok]]].
    { rewrite E in Hlen. cbn [List.length] in Hlen.
      rewrite length_app in Hlen. lia. }
    exists o, s'. split; [exact M|]. intros Ho.
    destruct (Hok Ho) as [l' [Hin Hl']]. exists l'. split; [|exact Hl'].
    rewrite E. right. apply in_or_app. now right.
  - destruct R as [l [read [E Hb]]]. exists (Ok tt), s1.
    split; [reflexivity|]. intros _. exists l. split; [|now apply Hb].
    rewrite E. now left.
  - exists (Raise e), s1. split; [reflexivity|discriminate].
Qed.

(** More turns than needed change nothing. *)
Lemma main_loop_more (reportlab_available : bool) :
  forall fuel fuel' s r,
    main_loop reportlab_available fuel s = Some r ->
    (fuel <= fuel')%nat ->
    main_loop reportlab_available fuel' s = Some r.
Proof.
  induction fuel as [|fuel IH]; intros fuel' s r M Hle; [discriminate M|].
  destruct fuel' as [|fuel']; [lia|]. cbn [main_loop] in *.
  destruct (menu_step reportlab_available s) as [[[|]|e] s1]; try exact M.
  apply (IH fuel' s1 r M). lia.
Qed.

(** X15.  On a finite console input the shell always ends: with more
    turns allowed than there are lines it stops, with the same result
    whatever the number of turns; and it ends normally only if some
    line was the Exit option: otherwise it ends in an exception, that
    of an operation or the EOFError of the exhausted input. *)
Theorem main_ends (reportlab_available : bool) (s : System) :
  exists o s',
    (forall fuel,
       (List.length (stdin (world s)) < fuel)%nat ->
       main reportlab_available fuel s = Some (o, s'))
    /\ (o = Ok tt -> exists l, In l (stdin (world s)) /\ strip l = "9").
Proof.
  unfold main.
  set (s0 := snd (on_world ensure_file_exists s)).
  assert (E0 : stdin (world s0) = stdin (world s)).
  { subst s0. unfold on_world, ensure_file_exists.
    destruct (csv_file (world s)); reflexivity. }
  destruct (main_loop_ends reportlab_available
              (S (List.length (stdin (world s0)))) s0) as [o [s' [M Hok]]];
    [lia|].
  exists o, s'. split.
  - intros fuel Hlen. apply (main_loop_more _ _ _ _ _ M). rewrite E0. lia.
  - now rewrite <- E0.
Qed.

Lemma invalid_option_eqb (l : string) :
  invalid_option l ->
  forall k, In k ["1"; "2"; "3"; "4"; "5"; "6"; "7"; "8"; "9"] ->
            String.eqb (strip l) k = false.
Proof.
  intros H k Hk. apply String.eqb_neq. intros E. apply H. now rewrite E.
Qed.

Lemma menu_step_invalid (reportlab_available : bool) (s : System)
    (l : string) (rest : list string) :
  stdin (world s) = l :: rest ->
  invalid_option l ->
  menu_step reportlab_available s
  = (Ok Continue,
     mkSystem (mkWorld (csv_file (world s)) rest
                 (stdout (world s) ++ turn "Invalid option. Enter number 1-9.")%list
                 (saves (world s)))
              (export_file s) (report s)).
Proof.
  intros E H. rewrite (menu_step_choice _ s l rest E). cbv zeta.
  pose proof (invalid_option_eqb l H) as K.
  rewrite !K by (simpl; tauto).
  unfold bindS, on_world, print, retS, prompted, turn. simpl.
  rewrite <- app_assoc. reflexivity.
Qed.

Lemma menu_step_exit (reportlab_available : bool) (s : System)
    (l : string) (rest : list string) :
  stdin (world s) = l :: rest ->
  strip l = "9" ->
  menu_step reportlab_available s
  = (Ok Break,
     mkSystem (mkWorld (csv_file (world s)) rest
                 (stdout (world s) ++ turn "Exiting. Goodbye!")%list
                 (saves (world s)))
              (export_file s) (report s)).
Proof.
  intros E H. rewrite (menu_step_choice _ s l rest E). cbv zeta. rewrite H.
  unfold bindS, on_world, print, retS, prompted, turn. simpl.
  rewrite <- app_assoc. reflexivity.
Qed.

Lemma main_loop_invalid (reportlab_available : bool) (tail : list string) :
  match tail with [] => True | l :: _ => strip l = "9" end ->
  forall bad fuel s,
    stdin (world s) = (bad ++ tail)%list ->
    Forall invalid_option bad ->
    (List.length bad < fuel)%nat ->
    main_loop reportlab_available fuel s
    = Some (fst (ending tail),
            mkSystem
              (mkWorld (csv_file (world s)) (tl tail)
                 (stdout (world s)
                    ++ List.concat
                         (map (fun _ => turn "Invalid option. Enter number 1-9.")
                              bad)
                    ++ snd (ending tail))%list
                 (saves (world s)))
              (export_file s) (report s)).
Proof.
  intros Ht. induction bad as [|b bad IH]; intros fuel s E F Hlen.
  - destruct fuel as [|fuel]; [simpl in Hlen; lia|]. cbn [main_loop].
    simpl in E. destruct tail as [|l rest].
    + rewrite (menu_step_eof _ s E). reflexivity.
    + rewrite (menu_step_exit _ s l rest E Ht). reflexivity.
  - destruct fuel as [|fuel]; [simpl in Hlen; lia|]. cbn [main_loop].
    inversion F as [|? ? Hb F']. subst.
    rewrite (menu_step_invalid _ s b (bad ++ tail)%list E Hb).
    match goal with
    | |- main_loop _ _ ?s1 = _ => rewrite (IH fuel s1)
    end; [|reflexivity|exact F'|simpl in Hlen; lia].
    cbn [world csv_file stdout saves export_file report map List.concat].
    rewrite <- !app_assoc. reflexivity.
Qed.

(** X16.  Lines that are no option of the menu are answered with the
    message and the menu again; the shell then ends normally at the
    Exit option, leaving the lines after it unread, or with EOFError
    when the input ends at the prompt.  The store is only initialised,
    never saved, and no export is made. *)
Theorem main_invalid_options (reportlab_available : bool) (s : System)
    (bad tail : list string) (fuel : nat) :
  stdin (world s) = (bad ++ tail)%list ->
  Forall invalid_option bad ->
  match tail with [] => True | l :: _ => strip l = "9" end ->
  (List.length bad < fuel)%nat ->
  main reportlab_available fuel s
  = Some (fst (ending tail),
          mkSystem
            (mkWorld (csv_file (snd (ensure_file_exists (world s)))) (tl tail)
               (stdout (world s)
                  ++ List.concat
                       (map (fun _ => turn "Invalid option. Enter number 1-9.") bad)
                  ++ snd (ending tail))%list
               (saves (world s)))
            (export_file s) (report s)).
Proof.
  intros E F Ht Hlen. unfold main.
  rewrite (main_loop_invalid reportlab_available tail Ht bad fuel _) ;
    [| |exact F|exact Hlen].
  - unfold on_world, ensure_file_exists.
    destruct (csv_file (world s)); reflexivity.
  - unfold on_world, ensure_file_exists.
    destruct (csv_file (world s)); exact E.
Qed.

Lemma main_invalid_options_witness :
  let s := mkSystem (mkWorld None ["0"; "ten"; " 9 "; "1"] [] 0) None None in
  main true 3 s
  = Some (Ok tt,
          mkSystem
            (mkWorld (Some (file_text [])) ["1"]
               (turn "Invalid option. Enter number 1-9."
                  ++ turn "Invalid option. Enter number 1-9."
                  ++ turn "Exiting. Goodbye!")%list 0)
            None None).
Proof.
  intros s.
  refine (main_invalid_options true s ["0"; "ten"] [" 9 "; "1"] 3
            eq_refl _ eq_refl _).
  - repeat constructor; unfold invalid_option; vm_compute;
      intuition discriminate.
  - simpl. lia.
Defined.

Lemma load_existing (w : World) (content : string) :
  csv_file w = Some content ->
  load_students w = (dict_reader content, w).
Proof.
  intros E. unfold load_students, bind, ensure_file_exists. rewrite E. simpl.
  now rewrite E.
Qed.

(** X17.  The shell does not catch the exception of an operation: the
    statistics chosen on a store with a record whose marks do not
    parse end the whole program in ValueError; the lines after the
    choice are never read, nothing is printed after the prompt, and the
    store is not written. *)
Theorem main_statistics_error (reportlab_available : bool) (s : System)
    (w1 : World) (students : list Student) (l : string) (rest : list string)
    (fuel : nat) :
  load_students (world s) = (Ok students, w1) ->
  (exists x, In x students /\ float_of_string (marks x) = None) ->
  stdin (world s) = l :: rest ->
  strip l = "6" ->
  main reportlab_available (S fuel) s
  = Some (Raise ValueError,
          mkSystem
            (mkWorld (csv_file w1) rest
               (stdout (world s) ++ [menu; "Choose an option (1-9): "])%list
               (saves (world s)))
            (export_file s) (report s)).
Proof.
  intros L Hbad E Hl.
  destruct (load_students_world _ _ _ L) as [W [Hi [Ho [Hs [c [Ec Eo]]]]]].
  unfold main. cbn [main_loop].
  set (s0 := snd (on_world ensure_file_exists s)).
  assert (E0 : s0 = mkSystem w1 (export_file s) (report s)).
  { subst s0. rewrite W. unfold on_world.
    destruct (ensure_file_exists (world s)); reflexivity. }
  rewrite E0.
  rewrite (menu_step_choice _ _ l rest) by (cbn [world]; congruence).
  cbv zeta. rewrite Hl. cbn [String.eqb Ascii.eqb Bool.eqb]. cbv iota.
  unfold bindS, on_world, prompted.
  cbn [world csv_file stdin stdout saves export_file report].
  match goal with
  | |- context [topper_and_average ?w] =>
      rewrite (topper_and_average_raises w w students)
  end.
  - rewrite Ho, Hs. reflexivity.
  - rewrite (load_existing _ c) by exact Ec. now rewrite <- Eo.
  - exact Hbad.
Qed.

Lemma main_statistics_error_witness :
  let students := [mkStudent "1001" "A" "abc"] in
  let s := mkSystem (mkWorld (Some (file_text students)) ["6"; "9"] [] 0)
                    None None in
  main false 1 s
  = Some (Raise ValueError,
          mkSystem
            (mkWorld (Some (file_text students)) ["9"]
               [menu; "Choose an option (1-9): "] 0)
            None None).
Proof.
  intros students s.
  refine (main_statistics_error false s (snd (load_students (world s)))
            students "6" ["9"] 0 eq_refl _ eq_refl eq_refl).
  exists (mkStudent "1001" "A" "abc"). split; [now left|reflexivity].
Defined.
